(** * The cache and fetch pipeline of content.js

    A shallow embedding of the core of the content script: the response
    validator [validateApiResponse], the IndexedDB cache [IndexedDBManager]
    (get / deleteEntry / getAll / save) and the two remote lookups
    [getImmersionKitData] and [findExampleBySentence].

    JavaScript values are an inductive type, the mutable [state] object is a
    record, the IndexedDB object store and chrome.storage are finite maps, and
    the asynchronous code is written in a small state-and-exception monad
    over a [World] that also records a trace of the platform calls made. *)

From Stdlib Require Import Ascii.
From stdpp Require Import gmap strings list pretty sorting.

Set Warnings "-register-all".
Open Scope Z_scope.

(** ** JavaScript values *)

(** The values that [response.json()] and the structured clone of IndexedDB
    can hold. Numbers are the integers among the JSON numbers ([-0] and [0]
    coincide, as they do under [===]); objects are their own properties in
    insertion order, with distinct keys. *)
Inductive JValue : Type :=
  | JUndefined
  | JNull
  | JBool (b : bool)
  | JNum (n : Z)
  | JStr (s : string)
  | JArr (items : list JValue)
  | JObj (fields : list (string * JValue)).

(** [!v] is false: the truthiness of [v]. *)
Definition truthy (v : JValue) : bool :=
  match v with
  | JUndefined | JNull => false
  | JBool b => b
  | JNum n => negb (n =? 0)
  | JStr s => negb (String.eqb s "")
  | JArr _ | JObj _ => true
  end.

Fixpoint assoc (key : string) (fields : list (string * JValue)) : JValue :=
  match fields with
  | [] => JUndefined
  | (k, v) :: rest => if String.eqb k key then v else assoc key rest
  end.

(** [v.key] for a value [v] other than [null] and [undefined], and for the
    property names the script reads (none of them is inherited from a
    prototype). Only an object has such a property. *)
Definition prop (key : string) (v : JValue) : JValue :=
  match v with
  | JObj fields => assoc key fields
  | _ => JUndefined
  end.

(** [v[0]]: the first element of an array, the property ["0"] of an object,
    the first character of a string. *)
Definition first (v : JValue) : JValue :=
  match v with
  | JArr (x :: _) => x
  | JObj fields => assoc "0" fields
  | JStr (String c _) => JStr (String c "")
  | _ => JUndefined
  end.

Fixpoint chars (s : string) : list JValue :=
  match s with
  | "" => []
  | String c rest => JStr (String c "") :: chars rest
  end.

(** [Object.values(v)] for a value other than [null] and [undefined]. *)
Definition Object_values (v : JValue) : list JValue :=
  match v with
  | JObj fields => map snd fields
  | JArr items => items
  | JStr s => chars s
  | _ => []
  end.

(** [count === 0] *)
Definition is_zero (v : JValue) : bool :=
  match v with
  | JNum n => n =? 0
  | _ => false
  end.

Definition Array_isArray (v : JValue) : bool :=
  match v with
  | JArr _ => true
  | _ => false
  end.

(** ** The [state] object *)

(** The fields of [state] that the cache and the fetch pipeline read or
    write. *)
Record State : Type := mkState {
  examples : JValue;
  apiDataFetched : bool;
  vocab : string;
  error : bool;
}.

Definition set_error (b : bool) (s : State) : State :=
  mkState (examples s) (apiDataFetched s) (vocab s) b.

Definition set_examples (v : JValue) (s : State) : State :=
  mkState v (apiDataFetched s) (vocab s) (error s).

Definition set_apiDataFetched (b : bool) (s : State) : State :=
  mkState (examples s) b (vocab s) (error s).

(** ** validateApiResponse *)

(** The function first resets [state.error], then applies its four checks;
    it returns the reason ([None] for [null]) and the updated [state]. *)
Definition validateApiResponse (jsonData : JValue) (s : State)
  : option string * State :=
  let s := set_error false s in
  if negb (truthy jsonData) then
    (Some "Not a valid JSON", s)
  else if negb (truthy (prop "data" jsonData))
       || negb (truthy (first (prop "data" jsonData)))
       || negb (truthy (prop "examples" (first (prop "data" jsonData)))) then
    (Some "Missing required data fields", s)
  else
    let categoryCount := prop "category_count" (first (prop "data" jsonData)) in
    if negb (truthy categoryCount) then
      (Some "Missing category count", s)
    else
      let allZero := forallb is_zero (Object_values categoryCount) in
      if allZero then (Some "Blank API", s) else (None, s).

(** The reason the validator returns for a payload (the initial [state] is
    as good as any other, see [validateApiResponse_eq]). *)
Definition reasonOf (jsonData : JValue) : option string :=
  fst (validateApiResponse jsonData (mkState (JArr []) false "" false)).

(** The checks of the validator as the specification lists them: each one
    says when it fails and with which reason. *)
Definition spec_checks : list ((JValue -> bool) * string) :=
  [ (fun payload => negb (truthy payload),
     "Not a valid JSON");
    (fun payload => negb (truthy (prop "data" payload))
                    || negb (truthy (first (prop "data" payload)))
                    || negb (truthy (prop "examples" (first (prop "data" payload)))),
     "Missing required data fields");
    (fun payload => negb (truthy (prop "category_count" (first (prop "data" payload)))),
     "Missing category count");
    (fun payload => forallb is_zero
                      (Object_values (prop "category_count" (first (prop "data" payload)))),
     "Blank API") ].

(** Checks applied in order, the first failure wins. *)
Fixpoint first_failure (checks : list ((JValue -> bool) * string))
    (payload : JValue) : option string :=
  match checks with
  | [] => None
  | (fails, reason) :: rest =>
      if fails payload then Some reason else first_failure rest payload
  end.

(** ** The platform: storage, network, clock *)

(** A row of the object store ["dataStore"] (key path [keyword]). *)
Record Row : Type := mkRow {
  keyword : string;
  data : JValue;
  timestamp : Z;
}.

(** What a [fetch] of the remote API comes back with. *)
Inductive Body : Type :=
  | Malformed (message : string)   (* [response.json()] rejects *)
  | Parsed (jsonData : JValue).

Inductive Response : Type :=
  | NetworkFailure (message : string)   (* [fetch] itself rejects *)
  | HttpResponse (status : Z) (body : Body).

(** A request takes [elapsed] milliseconds. *)
Record Exchange : Type := mkExchange {
  elapsed : Z;
  answer : Response;
}.

(** [response.ok] *)
Definition ok (status : Z) : bool := (200 <=? status) && (status <=? 299).

(** The calls made to the platform, in the order they are made. *)
Inductive Event : Type :=
  | EvPrefsGet (key : string)       (* chrome.storage.local.get *)
  | EvDbOpen                        (* indexedDB.open *)
  | EvDbGet (key : string)          (* store.get *)
  | EvDbDelete (key : string)       (* store.delete *)
  | EvDbGetAll                      (* store.openCursor scan *)
  | EvDbPut (key : string)          (* store.put *)
  | EvFetch (url : string)          (* fetch *)
  | EvWait (ms : Z)                 (* setTimeout *)
  | EvEmbed.                        (* embedImageAndPlayAudio *)

(** The IndexedDB facility is taken to be operational (requests succeed) and
    its transactions, like reading the clock, take no time. *)
Record World : Type := mkWorld {
  state : State;
  dataStore : gmap string Row;
  prefs : gmap string string;       (* chrome.storage.local *)
  now : Z;                          (* Date.now() *)
  requests : nat;                   (* fetches issued so far *)
  trace : list Event;
}.

(** What is thrown, or what a promise is rejected with: an [Error] object
    (with its [name] and [message]) or a plain string. *)
Inductive Exn : Type :=
  | ErrorObj (name : string) (message : string)
  | Rejection (reason : string).

(** [`${error.message}`]: a string has no [message]. *)
Definition message_of (e : Exn) : string :=
  match e with
  | ErrorObj _ m => m
  | Rejection _ => "undefined"
  end.

(** [`${error}`] *)
Definition to_string (e : Exn) : string :=
  match e with
  | ErrorObj n m => n +:+ ": " +:+ m
  | Rejection r => r
  end.

Inductive Outcome (A : Type) : Type :=
  | Returned (a : A)
  | Threw (e : Exn)
  | OutOfFuel.
Arguments Returned {A} a.
Arguments Threw {A} e.
Arguments OutOfFuel {A}.

(** ** The monad of the script's asynchronous code *)

Definition M (A : Type) : Type := World -> Outcome A * World.

Definition ret {A} (a : A) : M A := fun w => (Returned a, w).

Definition bind {A B} (m : M A) (k : A -> M B) : M B :=
  fun w =>
    match m w with
    | (Returned a, w') => k a w'
    | (Threw e, w') => (Threw e, w')
    | (OutOfFuel, w') => (OutOfFuel, w')
    end.

Definition throw {A} (e : Exn) : M A := fun w => (Threw e, w).

(** [try { m } catch (error) { handler error }] *)
Definition try_catch {A} (m : M A) (handler : Exn -> M A) : M A :=
  fun w =>
    match m w with
    | (Threw e, w') => handler e w'
    | r => r
    end.

Notation "x <- m ;; k" := (bind m (fun x => k))
  (at level 100, m at next level, right associativity).
Notation "m ;;; k" := (bind m (fun _ => k))
  (at level 100, right associativity).

Definition emit (e : Event) : M unit :=
  fun w => (Returned tt,
            mkWorld (state w) (dataStore w) (prefs w) (now w) (requests w)
                    (trace w ++ [e])).

Definition modify_state (f : State -> State) : M unit :=
  fun w => (Returned tt,
            mkWorld (f (state w)) (dataStore w) (prefs w) (now w) (requests w)
                    (trace w)).

Definition modify_store (f : gmap string Row -> gmap string Row) : M unit :=
  fun w => (Returned tt,
            mkWorld (state w) (f (dataStore w)) (prefs w) (now w) (requests w)
                    (trace w)).

Definition read {A} (f : World -> A) : M A := fun w => (Returned (f w), w).

(** [Date.now()] *)
Definition Date_now : M Z := read now.

Definition advance (ms : Z) : M unit :=
  fun w => (Returned tt,
            mkWorld (state w) (dataStore w) (prefs w) (now w + ms) (requests w)
                    (trace w)).

(** [await new Promise((resolve) => setTimeout(resolve, ms))] *)
Definition sleep (ms : Z) : M unit := emit (EvWait ms) ;;; advance ms.

(** One more request was answered, after [elapsed] milliseconds. *)
Definition answered (x : Exchange) : M unit :=
  fun w => (Returned tt,
            mkWorld (state w) (dataStore w) (prefs w) (now w + elapsed x)
                    (S (requests w)) (trace w)).

(** [validateApiResponse], run on the shared [state]. *)
Definition validate (jsonData : JValue) : M (option string) :=
  fun w =>
    let (reason, s) := validateApiResponse jsonData (state w) in
    (Returned reason,
     mkWorld s (dataStore w) (prefs w) (now w) (requests w) (trace w)).

(** [chromeStorage.get(key)] *)
Definition chromeStorage_get (key : string) : M (option string) :=
  emit (EvPrefsGet key) ;;; read (fun w => prefs w !! key).

(** ** Synchronous code that may throw *)

Definition Sync (A : Type) : Type := Exn + A.

Definition TypeError {A} (message : string) : Sync A :=
  inl (ErrorObj "TypeError" message).

(** [items.map(f)], where [f] may throw: the first exception, from the left,
    ends the traversal. *)
Fixpoint Array_map (f : JValue -> Sync JValue) (items : list JValue)
  : Sync (list JValue) :=
  match items with
  | [] => inr []
  | x :: rest =>
      match f x with
      | inl e => inl e
      | inr y =>
          match Array_map f rest with
          | inl e => inl e
          | inr ys => inr (y :: ys)
          end
      end
  end.

(** Run synchronous code inside the asynchronous one. *)
Definition lift {A} (r : Sync A) : M A :=
  match r with
  | inl e => throw e
  | inr a => ret a
  end.

(** ** Stable sorting, as [Array.prototype.sort] does it *)

Section Sort.
Context {A : Type} (le : A -> A -> bool).

Fixpoint insert_sorted (x : A) (l : list A) : list A :=
  match l with
  | [] => [x]
  | y :: rest => if le x y then x :: l else y :: insert_sorted x rest
  end.

(** Elements that compare equal keep their order. *)
Definition sort_by (l : list A) : list A := foldr insert_sorted [] l.
End Sort.

(** ** IndexedDBManager *)

Module IndexedDBManager.

Definition MAX_ENTRIES : Z := 100000000.
Definition EXPIRATION_TIME : Z := 30 * 24 * 60 * 60 * 1000 * 12 * 10000.

Definition open : M unit := emit EvDbOpen.

Definition deleteEntry (keyword : string) : M unit :=
  emit (EvDbDelete keyword) ;;;
  modify_store (delete keyword).

(** Returns the cached payload, or [null]; an expired row and a row whose
    payload fails the validator are deleted. *)
Definition get (keyword : string) : M JValue :=
  emit (EvDbGet keyword) ;;;
  result <- read (fun w => dataStore w !! keyword) ;;
  match result with
  | Some result =>
      now <- Date_now ;;
      let isExpired := bool_decide (now - timestamp result >= EXPIRATION_TIME) in
      validationError <- validate (data result) ;;
      if isExpired then
        deleteEntry keyword ;;; ret JNull
      else if validationError is Some _ then
        deleteEntry keyword ;;; ret JNull
      else
        ret (data result)
  | None => ret JNull
  end.

(** The cursor walks the rows in the order of their keys. *)
Definition rows (store : gmap string Row) : list Row :=
  sort_by (fun a b => String.leb (keyword a) (keyword b))
          (map snd (map_to_list store)).

Definition getAll : M (list Row) :=
  emit EvDbGetAll ;;; read (fun w => rows (dataStore w)).

(** The object literal built for one example. *)
Definition slimExample (example : JValue) : Sync JValue :=
  match example with
  | JNull =>
      TypeError "Cannot read properties of null (reading 'image_url')"
  | JUndefined =>
      TypeError "Cannot read properties of undefined (reading 'image_url')"
  | _ =>
      inr (JObj [("image_url", prop "image_url" example);
                 ("sound_url", prop "sound_url" example);
                 ("sentence", prop "sentence" example);
                 ("translation", prop "translation" example);
                 ("deck_name", prop "deck_name" example)])
  end.

Definition slimItem (item : JValue) : Sync JValue :=
  match item with
  | JNull =>
      TypeError "Cannot read properties of null (reading 'category_count')"
  | JUndefined =>
      TypeError "Cannot read properties of undefined (reading 'category_count')"
  | _ =>
      let counts :=
        if truthy (prop "category_count" item)
        then [("category_count", prop "category_count" item)] else [] in
      match prop "examples" item with
      | JArr examples =>
          match Array_map slimExample examples with
          | inl e => inl e
          | inr slim => inr (JObj (counts ++ [("examples", JArr slim)]))
          end
      | _ => inr (JObj counts)
      end
  end.

(** [data.data.map(...)] for a truthy [data.data]. *)
Definition slimResults (results : JValue) : Sync JValue :=
  match results with
  | JArr items =>
      match Array_map slimItem items with
      | inl e => inl e
      | inr slim => inr (JArr slim)
      end
  | _ => TypeError "data.data.map is not a function"
  end.

(** The rows to evict: the oldest ones, so that one place is free. *)
Definition entriesToDelete (entries : list Row) : list Row :=
  if bool_decide (Z.of_nat (length entries) >= MAX_ENTRIES) then
    take (Z.to_nat (Z.of_nat (length entries) - MAX_ENTRIES + 1))
         (sort_by (fun a b => bool_decide (timestamp a <= timestamp b)) entries)
  else [].

Fixpoint deleteAll (entries : list Row) : M unit :=
  match entries with
  | [] => ret tt
  | entry :: rest =>
      emit (EvDbDelete (keyword entry)) ;;;
      modify_store (delete (keyword entry)) ;;;
      deleteAll rest
  end.

Definition save (keyword : string) (data : JValue) : M unit :=
  try_catch
    (validationError <- validate data ;;
     if validationError is Some _ then
       ret tt
     else if truthy data && truthy (prop "data" data) then
       slim <- lift (slimResults (prop "data" data)) ;;
       let slimData := JObj [("data", slim)] in
       entries <- getAll ;;
       deleteAll (entriesToDelete entries) ;;;
       now <- Date_now ;;
       emit (EvDbPut keyword) ;;;
       modify_store (insert keyword (mkRow keyword slimData now))
     else
       ret tt)
    (fun error => throw (Rejection ("Error in saveToIndexedDB: " +:+ to_string error))).

End IndexedDBManager.

(** The store once [deleteAll entries] has run. *)
Definition without (entries : list Row) (store : gmap string Row) : gmap string Row :=
  foldl (fun store entry => delete (keyword entry) store) store entries.

(** ** The shape of a payload *)

(** The slimmed projection of an example: exactly the five fields the UI
    needs, each with the value the example has for it. *)
Definition projection (example : JValue) : JValue :=
  JObj [("image_url", prop "image_url" example);
        ("sound_url", prop "sound_url" example);
        ("sentence", prop "sentence" example);
        ("translation", prop "translation" example);
        ("deck_name", prop "deck_name" example)].

(** Neither [null] nor [undefined]. *)
Definition present (v : JValue) : bool :=
  match v with
  | JNull | JUndefined => false
  | _ => true
  end.

(** A result that is present and whose examples, when they are an array,
    are all present. *)
Definition shapedItem (item : JValue) : bool :=
  present item
  && match prop "examples" item with
     | JArr examples => forallb present examples
     | _ => true
     end.

(** A payload whose results are an array of such results. *)
Definition shaped (payload : JValue) : bool :=
  match prop "data" payload with
  | JArr items => forallb shapedItem items
  | _ => false
  end.

(** ** Strings: [split(",")] and [parseInt(_, 10)] *)

(** [s.split(",")] *)
Fixpoint split_comma (s : string) : list string :=
  match s with
  | "" => [""]
  | String c rest =>
      if Ascii.eqb c ","%char then "" :: split_comma rest
      else match split_comma rest with
           | piece :: more => String c piece :: more
           | [] => [String c ""]
           end
  end.

Fixpoint skip_spaces (s : string) : string :=
  match s with
  | String c rest => if Ascii.is_space c then skip_spaces rest else s
  | "" => ""
  end.

(** The value of the longest prefix of decimal digits, with the number of
    digits read. *)
Fixpoint digits (acc : Z) (count : nat) (s : string) : Z * nat :=
  match s with
  | String c rest =>
      match Ascii.is_nat c with
      | Some d => digits (10 * acc + Z.of_nat d) (S count) rest
      | None => (acc, count)
      end
  | "" => (acc, count)
  end.

(** [parseInt(s, 10)], [None] for [NaN]: leading (ASCII) white space, an
    optional sign, then decimal digits up to the first other character. *)
Definition parseInt10 (s : string) : option Z :=
  let s := skip_spaces s in
  let (sign, s) :=
    match s with
    | String "-"%char rest => (-1, rest)
    | String "+"%char rest => (1, rest)
    | _ => (1, s)
    end in
  match digits 0 0 s with
  | (_, O) => None
  | (n, _) => Some (sign * n)
  end.

(** The blacklist test on the record read from chrome.storage. *)
Definition isBlacklisted (storedValue : option string) : bool :=
  match storedValue with
  | Some storedValue =>
      negb (String.eqb storedValue "")
      && bool_decide (1 < length (split_comma storedValue))%nat
      && match split_comma storedValue !! 1%nat with
         | Some flag => bool_decide (parseInt10 flag = Some 2)
         | None => false
         end
  | None => false
  end.

(** ** The fetch pipeline *)

(** How a run of [fetchData] ends when it does not throw: it is finished, or
    it hands over to a further run ([return fetchData()], which is not
    awaited inside the [try] blocks). *)
Inductive Next : Type :=
  | Finished
  | Again (attempt : nat).

(** The keyword in the exact-match syntax of the API. *)
Definition quoted (keyword : string) : string := "„Äå" +:+ keyword +:+ "„Äç".

Section Pipeline.

(** The percent-encoding of a (well-formed) string, and the remote API:
    what the [n]-th request of the page, for [url], comes back with. *)
Variable encodeURIComponent : string -> string.
Variable remote : nat -> string -> Exchange.

(** [await fetch(url)]: the request is counted, time passes, and the
    response is there, or the promise is rejected. *)
Definition fetch (url : string) : M (Z * Body) :=
  emit (EvFetch url) ;;;
  n <- read requests ;;
  answered (remote n url) ;;;
  match answer (remote n url) with
  | NetworkFailure message => throw (ErrorObj "TypeError" message)
  | HttpResponse status body => ret (status, body)
  end.

(** [await response.json()] *)
Definition json (body : Body) : M JValue :=
  match body with
  | Malformed message => throw (ErrorObj "SyntaxError" message)
  | Parsed jsonData => ret jsonData
  end.

(** [new Error(message)] *)
Definition Error (message : string) : Exn := ErrorObj "Error" message.

Definition embedImageAndPlayAudio : M unit := emit EvEmbed.

(** [cachedData && Array.isArray(cachedData.data) && cachedData.data.length > 0] *)
Definition cacheHit (cachedData : JValue) : bool :=
  truthy cachedData
  && match prop "data" cachedData with
     | JArr items => bool_decide (0 < length items)%nat
     | _ => false
     end.

Fixpoint fetchData (searchVocab url : string) (maxRetries : nat)
    (fuel : nat) (attempt : nat) : M unit :=
  match fuel with
  | O => fun w => (OutOfFuel, w)
  | S fuel =>
      next <- try_catch
        (IndexedDBManager.open ;;;
         cachedData <- IndexedDBManager.get searchVocab ;;
         if cacheHit cachedData then
           modify_state (set_examples (prop "examples" (first (prop "data" cachedData)))) ;;;
           modify_state (set_apiDataFetched true) ;;;
           ret Finished
         else
           try_catch
             (response <- fetch url ;;
              if negb (ok (fst response)) then
                throw (Error ("HTTP error! status: " +:+ pretty (fst response)))
              else
                jsonData <- json (snd response) ;;
                validationError <- validate jsonData ;;
                match validationError with
                | None =>
                    modify_state (set_examples (prop "examples" (first (prop "data" jsonData)))) ;;;
                    modify_state (set_apiDataFetched true) ;;;
                    IndexedDBManager.save searchVocab jsonData ;;;
                    ret Finished
                | Some validationError =>
                    let attempt := S attempt in
                    if bool_decide (attempt < maxRetries)%nat then
                      sleep 2000 ;;;
                      ret (Again attempt)
                    else
                      throw (Error ("Invalid API response after " +:+ pretty maxRetries
                                    +:+ " attempts: " +:+ validationError))
                end)
             (fun error => throw (Error ("Fetch error: " +:+ message_of error))))
        (fun error =>
           modify_state (set_error true) ;;;
           embedImageAndPlayAudio ;;;
           throw error) ;;
      match next with
      | Finished => ret tt
      | Again attempt => fetchData searchVocab url maxRetries fuel attempt
      end
  end.

(** [state.vocab] *)
Definition state_vocab : M string := read (fun w => vocab (state w)).

(** The constants [searchVocab] and [url] of [getImmersionKitData]. *)
Definition searchVocabOf (vocab : string) (exactSearch : bool) : string :=
  if exactSearch then quoted vocab else vocab.

Definition urlOf (keyword : string) : string :=
  "https://api.immersionkit.com/look_up_dictionary?keyword="
  +:+ encodeURIComponent keyword.

Definition getImmersionKitData (vocab : string) (exactSearch : bool) : M unit :=
  let searchVocab := searchVocabOf vocab exactSearch in
  let url := urlOf searchVocab in
  let maxRetries := 5%nat in
  key <- state_vocab ;;
  storedValue <- chromeStorage_get key ;;
  if isBlacklisted storedValue then
    ret tt
  else
    fetchData searchVocab url maxRetries maxRetries 0.

End Pipeline.

(** ** findExampleBySentence *)

(** [items.filter(f)], where [f] may throw. *)
Fixpoint Array_filter (f : JValue -> Sync bool) (items : list JValue)
  : Sync (list JValue) :=
  match items with
  | [] => inr []
  | x :: rest =>
      match f x with
      | inl e => inl e
      | inr keep =>
          match Array_filter f rest with
          | inl e => inl e
          | inr ys => inr (if keep then x :: ys else ys)
          end
      end
  end.

(** [example.sentence === sentence] *)
Definition sentenceIs (sentence : string) (example : JValue) : Sync bool :=
  match example with
  | JNull =>
      TypeError "Cannot read properties of null (reading 'sentence')"
  | JUndefined =>
      TypeError "Cannot read properties of undefined (reading 'sentence')"
  | _ =>
      match prop "sentence" example with
      | JStr s => inr (String.eqb s sentence)
      | _ => inr false
      end
  end.

(** One turn of the loop over [jsonData.data]: the matches so far, extended
    by those of the result [data]. *)
Definition matchesOf (sentence : string) (matchingExamples : list JValue)
    (data : JValue) : Sync (list JValue) :=
  match data with
  | JNull =>
      TypeError "Cannot read properties of null (reading 'examples')"
  | JUndefined =>
      TypeError "Cannot read properties of undefined (reading 'examples')"
  | _ =>
      if truthy (prop "examples" data) then
        match prop "examples" data with
        | JArr examples =>
            match Array_filter (sentenceIs sentence) examples with
            | inl e => inl e
            | inr found => inr (matchingExamples ++ found)
            end
        | _ => TypeError "data.examples.filter is not a function"
        end
      else inr matchingExamples
  end.

Fixpoint forOf (sentence : string) (matchingExamples : list JValue)
    (results : list JValue) : Sync (list JValue) :=
  match results with
  | [] => inr matchingExamples
  | data :: rest =>
      match matchesOf sentence matchingExamples data with
      | inl e => inl e
      | inr matchingExamples => forOf sentence matchingExamples rest
      end
  end.

(** [for (const data of results)]: an array and a string are iterable. *)
Definition allMatches (sentence : string) (results : JValue) : Sync (list JValue) :=
  match results with
  | JArr items => forOf sentence [] items
  | JStr s => forOf sentence [] (chars s)
  | _ => TypeError "jsonData.data is not iterable"
  end.

(** [items[i]] *)
Definition at_index (items : list JValue) (i : Z) : JValue :=
  if bool_decide (0 <= i) then default JUndefined (items !! Z.to_nat i)
  else JUndefined.

Section Favorite.

Variable encodeURIComponent : string -> string.
Variable remote : nat -> string -> Exchange.

(** The [try] block yields [Some v] when it returns [v] and [None] when
    control leaves it at its end. *)
Definition findExampleBySentence (sentence : string) (occurrenceIndex : Z)
  : M JValue :=
  let searchUrl := urlOf encodeURIComponent (quoted sentence) in
  returned <- try_catch
    (response <- fetch remote searchUrl ;;
     if negb (ok (fst response)) then
       throw (Error ("HTTP error! status: " +:+ pretty (fst response)))
     else
       jsonData <- json (snd response) ;;
       if truthy (prop "data" jsonData) then
         matchingExamples <- lift (allMatches sentence (prop "data" jsonData)) ;;
         if bool_decide (Z.of_nat (length matchingExamples) > occurrenceIndex) then
           ret (Some (at_index matchingExamples occurrenceIndex))
         else ret None
       else ret None)
    (fun error => ret None) ;;
  match returned with
  | Some example => ret example
  | None => ret JNull
  end.

End Favorite.

(** ** Failed requests *)

(** The message of the exception that the code around [fetch] throws for a
    response: the request failed, the status is not a 2xx one, or the body
    is not JSON. [None] when the response is parsed. *)
Definition failure (response : Response) : option string :=
  match response with
  | NetworkFailure message => Some message
  | HttpResponse status body =>
      if negb (ok status) then Some ("HTTP error! status: " +:+ pretty status)
      else match body with
           | Malformed message => Some message
           | Parsed _ => None
           end
  end.

(** The fetches and the waits among the platform calls. *)
Definition onNetwork (e : Event) : bool :=
  match e with
  | EvFetch _ | EvWait _ => true
  | _ => false
  end.

Definition isFetch (e : Event) : bool :=
  match e with
  | EvFetch _ => true
  | _ => false
  end.

(** The calls that touch the IndexedDB store. *)
Definition onStore (e : Event) : bool :=
  match e with
  | EvDbOpen | EvDbGet _ | EvDbDelete _ | EvDbGetAll | EvDbPut _ => true
  | _ => false
  end.

(** The [n]-th request from now on, for [url], receives a payload that the
    validator rejects. *)
Definition rejectedAt (remote : nat -> string -> Exchange) (url : string)
    (w : World) (n : nat) : Prop :=
  exists status p reason,
    answer (remote (requests w + n)%nat url) = HttpResponse status (Parsed p)
    /\ ok status = true
    /\ reasonOf p = Some reason.

(** The platform calls of a run of [fetchData] that ends in a wait. *)
Definition retryRound (searchVocab url : string) : list Event :=
  [EvDbOpen; EvDbGet searchVocab; EvFetch url; EvWait 2000].

(** The platform calls of a run of [fetchData] that ends in an exception
    after its fetch. *)
Definition lastRound (searchVocab url : string) : list Event :=
  [EvDbOpen; EvDbGet searchVocab; EvFetch url; EvEmbed].

(** ** Runs that end *)

(** Whatever the world, the run of [m] ends: it returns a value that
    satisfies [Q], or it throws; it does not run out of fuel. *)
Definition completes {A} (m : M A) (Q : A -> Prop) : Prop :=
  forall w,
    match fst (m w) with
    | Returned a => Q a
    | Threw _ => True
    | OutOfFuel => False
    end.

(** ** Requests spent, parts left alone *)


(** The run of [m] leaves the preferences and the current word alone. *)
Definition frames {A} (m : M A) : Prop :=
  forall w,
    prefs (snd (m w)) = prefs w
    /\ vocab (state (snd (m w))) = vocab (state w).

(** ** The examples with a given sentence *)

(** The example has exactly this sentence. *)
Definition hasSentence (sentence : string) (example : JValue) : bool :=
  match prop "sentence" example with
  | JStr s => String.eqb s sentence
  | _ => false
  end.

(** The examples of a result that have this sentence, in order. *)
Definition matchesIn (sentence : string) (item : JValue) : list JValue :=
  match prop "examples" item with
  | JArr examples => List.filter (hasSentence sentence) examples
  | _ => []
  end.

(** A result that is present and whose examples are an array of present
    examples, or are missing (falsy). *)
Definition scannable (item : JValue) : bool :=
  present item
  && match prop "examples" item with
     | JArr examples => forallb present examples
     | other => negb (truthy other)
     end.

(** ** The states the store can reach *)

(** The row holds the slimmed form of the payload [source], which passed the
    validator. *)
Definition writtenFrom (source : JValue) (row : Row) : Prop :=
  reasonOf source = None
  /\ exists slim,
       IndexedDBManager.slimResults (prop "data" source) = inr slim
       /\ data row = JObj [("data", slim)].

(** Every row sits under its own keyword and was written from a payload that
    passed the validator. *)
Definition storeInvariant (store : gmap string Row) : Prop :=
  forall k row, store !! k = Some row ->
    keyword row = k /\ exists source, writtenFrom source row.

(** An operation keeps the invariant of the store. *)
Definition preserves {A} (m : M A) : Prop :=
  forall w, storeInvariant (dataStore w) -> storeInvariant (dataStore (snd (m w))).

Section Reachable.

Variable encodeURIComponent : string -> string.
Variable remote : nat -> string -> Exchange.

(** The worlds the script can be in: it starts with an empty store, and
    the store is only touched by the operations of [IndexedDBManager],
    called directly or by the two lookups; the rest of the script and the
    passing of time change the other parts of the world. *)
Inductive reachable : World -> Prop :=
  | reach_fresh w :
      dataStore w = ∅ -> reachable w
  | reach_elsewhere w w' :
      reachable w -> dataStore w' = dataStore w -> reachable w'
  | reach_get w k :
      reachable w -> reachable (snd (IndexedDBManager.get k w))
  | reach_deleteEntry w k :
      reachable w -> reachable (snd (IndexedDBManager.deleteEntry k w))
  | reach_save w k p :
      reachable w -> reachable (snd (IndexedDBManager.save k p w))
  | reach_lookup w vocab exactSearch :
      reachable w ->
      reachable (snd (getImmersionKitData encodeURIComponent remote
                        vocab exactSearch w))
  | reach_favorite w sentence occurrenceIndex :
      reachable w ->
      reachable (snd (findExampleBySentence encodeURIComponent remote
                        sentence occurrenceIndex w)).

End Reachable.

(** ** The starred sentence in chrome.storage *)

(** These functions only touch chrome.storage: they are written as functions
    of its content, the map from keys to the strings stored. *)

(** [storeData(key, sentence, occurrenceIndex)], for a string and an integer:
    the content of chrome.storage afterwards. *)
Definition storeData (key sentence : string) (occurrenceIndex : Z)
    (storage : gmap string string) : gmap string string :=
  let value := sentence +:+ "," +:+ pretty occurrenceIndex in
  <[key := value]> storage.

(** [getStoredData(key)]: [None] for [null], else the sentence and the
    occurrence index, itself [None] for [NaN]. *)
Definition getStoredData (key : string) (storage : gmap string string)
  : option (string * option Z) :=
  match storage !! key with
  | Some storedValue =>
      if negb (String.eqb storedValue "") then
        let pieces := split_comma storedValue in
        Some (default "" (pieces !! 0%nat),
              match pieces !! 1%nat with
              | Some occurrenceIndex => parseInt10 occurrenceIndex
              | None => None
              end)
      else None
  | None => None
  end.

(** [`${v}`], the string a value is converted to; a number is an integer
    that JavaScript prints in decimal (below 10^21 in absolute value). *)
Fixpoint String_of (v : JValue) : string :=
  match v with
  | JUndefined => "undefined"
  | JNull => "null"
  | JBool true => "true"
  | JBool false => "false"
  | JNum n => pretty n
  | JStr s => s
  | JArr items =>
      (fix join (items : list JValue) : string :=
         match items with
         | [] => ""
         | [x] => if present x then String_of x else ""
         | x :: rest =>
             (if present x then String_of x else "") +:+ "," +:+ join rest
         end) items
  | JObj _ => "[object Object]"
  end.

(** [v[i]] for an integer [i]; reading an index of [null] or [undefined]
    throws. *)
Definition index (v : JValue) (i : Z) : Sync JValue :=
  match v with
  | JNull =>
      TypeError ("Cannot read properties of null (reading '" +:+ pretty i +:+ "')")
  | JUndefined =>
      TypeError ("Cannot read properties of undefined (reading '" +:+ pretty i +:+ "')")
  | JArr items => inr (at_index items i)
  | JStr s => inr (at_index (chars s) i)
  | JObj fields => inr (assoc (pretty i) fields)
  | _ => inr JUndefined
  end.

(** The test of [toggleStarState] for a blacklisted word: the second field
    of the record is the string "2". *)
Definition isBlacklistedExactly (storedValue : option string) : bool :=
  match storedValue with
  | Some storedValue =>
      negb (String.eqb storedValue "")
      && bool_decide (1 < length (split_comma storedValue))%nat
      && match split_comma storedValue !! 1%nat with
         | Some flag => String.eqb flag "2"
         | None => false
         end
  | None => false
  end.

(** [storedSentence === currentExample.sentence] *)
Definition isString (s : string) (v : JValue) : bool :=
  match v with
  | JStr s' => String.eqb s s'
  | _ => false
  end.

(** [toggleStarState(starIcon)], given [state] and [state.currentExampleIndex]:
    the content of chrome.storage afterwards and the text written to the
    icon, if any. *)
Definition toggleStarState (s : State) (currentExampleIndex : Z)
    (storage : gmap string string)
  : Sync (gmap string string * option string) :=
  let storedValue := storage !! vocab s in
  if isBlacklistedExactly storedValue then
    inr (storage, Some "‚òÜ")
  else
    match index (examples s) currentExampleIndex with
    | inl e => inl e
    | inr currentExample =>
        if negb (truthy currentExample)
           || negb (truthy (prop "sentence" currentExample)) then
          inr (storage, None)
        else
          match storedValue with
          | Some (String c rest as storedValue) =>
              let storedSentence := default "" (split_comma storedValue !! 0%nat) in
              if isString storedSentence (prop "sentence" currentExample) then
                inr (delete (vocab s) storage, Some "‚òÜ")
              else
                inr (storeData (vocab s)
                       (String_of (prop "sentence" currentExample)) 0 storage,
                     Some "‚òÖ")
          | _ =>
              inr (storeData (vocab s)
                     (String_of (prop "sentence" currentExample)) 0 storage,
                   Some "‚òÖ")
          end
    end.

(** A string without a comma. *)
Fixpoint commaFree (s : string) : bool :=
  match s with
  | "" => true
  | String c rest => negb (Ascii.eqb c ","%char) && commaFree rest
  end.

(** The example shown, [state.examples[currentExampleIndex]], has the
    non-empty string [sentence] as its sentence. *)
Definition currentSentence (s : State) (currentExampleIndex : Z)
    (sentence : string) : Prop :=
  exists example,
    index (examples s) currentExampleIndex = inr example
    /\ prop "sentence" example = JStr sentence
    /\ sentence <> "".

(** The world once chrome.storage holds [storage]. *)
Definition withPrefs (storage : gmap string string) (w : World) : World :=
  mkWorld (state w) (dataStore w) storage (now w) (requests w) (trace w).

(** ** replaceSpecialCharacters *)

(** [s.replace(/pattern/g, replacement)] for a pattern that is a plain,
    non-empty text and a replacement without a dollar sign: the occurrences
    are found from the left and do not overlap; [skip] characters of a found
    occurrence are still to be passed over. *)
Fixpoint replace_from (pattern replacement : string) (skip : nat) (s : string)
  : string :=
  match s with
  | "" => ""
  | String c rest =>
      match skip with
      | S skip => replace_from pattern replacement skip rest
      | O =>
          if String.prefix pattern s then
            replacement
            +:+ replace_from pattern replacement (String.length pattern - 1) rest
          else String c (replace_from pattern replacement 0 rest)
      end
  end.

Definition replaceAll (pattern replacement s : string) : string :=
  replace_from pattern replacement 0 s.

(** The line feed and the double quote. *)
Definition LF : ascii := "010"%char.
Definition QUOTE : ascii := "034"%char.

Definition replaceSpecialCharacters (text : string) : string :=
  replaceAll (String LF "") "<br>"
    (replaceAll "&quot;" (String QUOTE "")
       (replaceAll "<br>" (String LF "") text)).

(** The character occurs in the string. *)
Fixpoint occurs (c : ascii) (s : string) : bool :=
  match s with
  | "" => false
  | String c' rest => Ascii.eqb c c' || occurs c rest
  end.

(** ** Sample inputs *)

(** The three payloads of the scenario. *)
Definition payload_empty : JValue := JObj [].

Definition payload_blank : JValue :=
  JObj [("data", JArr [JObj [("category_count", JObj [("a", JNum 0); ("b", JNum 0)]);
                             ("examples", JArr [JObj [("sentence", JStr "x")]])]])].

Definition payload_hit : JValue :=
  JObj [("data", JArr [JObj [("category_count", JObj [("a", JNum 1)]);
                             ("examples", JArr [JObj [("sentence", JStr "x")]])]])].


(** The [state] the script starts with, on a page for the word [neko], and
    the same after a lookup failed. *)
Definition state0 : State := mkState (JArr []) false "neko" false.

Definition state_failed : State := mkState (JArr []) false "neko" true.

(** A payload that passes the validator although the examples of its
    result are a string. *)
Definition payload_odd : JValue :=
  JObj [("data", JArr [JObj [("category_count", JObj [("a", JNum 1)]);
                             ("examples", JStr "x")]])].

(** A fresh page: nothing cached, no preference recorded. *)
Definition world0 : World := mkWorld state0 ∅ ∅ 1700000000000 0 [].

(** A payload that passes the validator with an empty list of examples. *)
Definition payload_bare : JValue :=
  JObj [("data", JArr [JObj [("category_count", JObj [("a", JNum 1)]);
                             ("examples", JArr [])]])].

(** [encodeURIComponent] on unreserved characters, and a remote API that
    answers every request with the payload [payload_blank]. *)
Definition encode_plain (s : string) : string := s.

Definition remote_blank (n : nat) (url : string) : Exchange :=
  mkExchange 120 (HttpResponse 200 (Parsed payload_blank)).

(** The page shows the word [inu]; the preferences hold a blacklist record
    for the word [neko]. *)
Definition world_inu : World :=
  mkWorld (mkState (JArr []) false "inu" false) ∅ {["neko" := "x,2"]}
          1700000000000 0 [].

(** The page shows the word [neko], which is blacklisted. *)
Definition world_neko_blacklisted : World :=
  mkWorld state0 ∅ {["neko" := "x,2"]} 1700000000000 0 [].

(** A remote API that is down. *)
Definition remote_down (n : nat) (url : string) : Exchange :=
  mkExchange 30 (HttpResponse 503 (Malformed "Unexpected token < in JSON")).

(** The row that [save] writes for [payload_hit] under the key [neko], and
    a world where this row is one millisecond short of its expiry. *)
Definition row_neko : Row :=
  mkRow "neko"
    (JObj [("data",
            JArr [JObj [("category_count", JObj [("a", JNum 1)]);
                        ("examples",
                         JArr [projection (JObj [("sentence", JStr "x")])])]])])
    1700000000000.

Definition world_cached : World :=
  mkWorld state0 {["neko" := row_neko]} ∅
          (1700000000000 + IndexedDBManager.EXPIRATION_TIME - 1) 0 [].

(** A payload that passes the validator although its second result is
    [null]. *)
Definition payload_null_result : JValue :=
  JObj [("data", JArr [JObj [("category_count", JObj [("a", JNum 1)]);
                             ("examples", JArr [JObj [("sentence", JStr "x")]])];
                       JNull])].

(** A remote API that answers every request with [payload_hit], and one
    that answers with [payload_null_result]. *)
Definition remote_hit (n : nat) (url : string) : Exchange :=
  mkExchange 120 (HttpResponse 200 (Parsed payload_hit)).


(** A remote API whose first two answers are rejected by the validator and
    whose later answers are [payload_hit]. *)
Definition remote_slow (n : nat) (url : string) : Exchange :=
  if bool_decide (n < 2)%nat then remote_blank n url else remote_hit n url.

(** A response with two results; the sentence [x] occurs once in the first
    and once in the second. *)
Definition payload_two_results : JValue :=
  JObj [("data",
         JArr [JObj [("category_count", JObj [("anime", JNum 2)]);
                     ("examples",
                      JArr [JObj [("sentence", JStr "y"); ("deck_name", JStr "A")];
                            JObj [("sentence", JStr "x"); ("deck_name", JStr "B")]])];
               JObj [("examples",
                      JArr [JObj [("sentence", JStr "x"); ("deck_name", JStr "C")]])]])].

Definition remote_two_results (n : nat) (url : string) : Exchange :=
  mkExchange 80 (HttpResponse 200 (Parsed payload_two_results)).

(** The page of the word [neko] with two examples fetched; the sentence of
    the second one holds a comma followed by a 2. *)
Definition state_shown : State :=
  mkState (JArr [JObj [("sentence", JStr "neko ga iru")];
                 JObj [("sentence", JStr "neko,2 hiki")]])
          true "neko" false.

Definition world_shown : World := mkWorld state_shown ∅ ∅ 1700000000000 0 [].

(** A world where the row of [neko] has just expired. *)
Definition world_expired : World :=
  mkWorld state0 {["neko" := row_neko]} ∅
          (1700000000000 + IndexedDBManager.EXPIRATION_TIME) 0 [].

(** * Properties *)

(** ** The validator *)

Lemma validateApiResponse_eq (p : JValue) (s : State) :
  validateApiResponse p s = (reasonOf p, set_error false s).
Proof.
  unfold reasonOf, validateApiResponse.
  repeat match goal with
         | |- context [if ?b then _ else _] => destruct b
         end; reflexivity.
Qed.

Lemma validate_run (p : JValue) (w : World) :
  validate p w =
  (Returned (reasonOf p),
   mkWorld (set_error false (state w)) (dataStore w) (prefs w) (now w)
           (requests w) (trace w)).
Proof. unfold validate. rewrite validateApiResponse_eq. reflexivity. Qed.

Lemma reasonOf_first_failure (p : JValue) :
  reasonOf p = first_failure spec_checks p.
Proof.
  unfold reasonOf, validateApiResponse, first_failure, spec_checks.
  repeat match goal with
         | |- context [if ?b then _ else _] => destruct b
         end; reflexivity.
Qed.

(** C2, as stated, fails: [validate({})] does not return the reason of the
    first check; an empty object is truthy, so it passes the test
    [!jsonData] and is caught by the second check. *)
Lemma validate_empty_object_passes_first_check :
  fst (validateApiResponse payload_empty state0) <> Some "Not a valid JSON"
  /\ fst (validateApiResponse payload_empty state0)
     = Some "Missing required data fields".
Proof. split; [discriminate | reflexivity]. Qed.

(** C2 (amended): for every payload and every [state], the validator returns
    the reason of the first of its four checks, taken in order, that fails,
    and [null] when none fails; [validate({})] returns the reason of the
    second check ("Missing required data fields"), the blank payload returns
    "Blank API" and the payload with a non-zero count returns [null]. *)
Theorem validator_first_failure_wins :
  (forall p s, fst (validateApiResponse p s) = first_failure spec_checks p)
  /\ reasonOf payload_empty = Some "Missing required data fields"
  /\ reasonOf payload_blank = Some "Blank API"
  /\ reasonOf payload_hit = None
  /\ reasonOf JNull = Some "Not a valid JSON"
  /\ reasonOf JUndefined = Some "Not a valid JSON".
Proof.
  split.
  - intros p s. rewrite validateApiResponse_eq. apply reasonOf_first_failure.
  - repeat split; reflexivity.
Qed.

(** C3, as stated, fails: a call of the validator writes the shared flag
    [state.error]; after an error was flagged, the extra call clears it. *)
Lemma validate_writes_error_flag :
  error state_failed = true
  /\ error (snd (validateApiResponse payload_hit state_failed)) = false
  /\ snd (validateApiResponse payload_hit state_failed) <> state_failed.
Proof. repeat split; [discriminate]. Qed.

(** C3 (amended): the reason returned by the validator depends on the
    payload only; the call's one side effect is to reset the shared flag
    [state.error] to false, every other field of [state] and every other
    part of the program state (store, preferences, clock, platform calls)
    being left as it was; so an extra call goes unobserved exactly when the
    flag was already false. *)
Theorem validate_resets_only_error_flag (p : JValue) (w : World) :
  fst (validate p w) = Returned (reasonOf p)
  /\ (forall s s', fst (validateApiResponse p s) = fst (validateApiResponse p s'))
  /\ error (state (snd (validate p w))) = false
  /\ examples (state (snd (validate p w))) = examples (state w)
  /\ apiDataFetched (state (snd (validate p w))) = apiDataFetched (state w)
  /\ vocab (state (snd (validate p w))) = vocab (state w)
  /\ dataStore (snd (validate p w)) = dataStore w
  /\ prefs (snd (validate p w)) = prefs w
  /\ now (snd (validate p w)) = now w
  /\ requests (snd (validate p w)) = requests w
  /\ trace (snd (validate p w)) = trace w
  /\ (snd (validate p w) = w <-> error (state w) = false).
Proof.
  rewrite validate_run. cbn.
  repeat split; try reflexivity.
  - intros s s'. rewrite !validateApiResponse_eq. reflexivity.
  - intros H. rewrite <- H. reflexivity.
  - intros H. destruct w as [[ex fetched v err] st pr t n tr]. cbn in *.
    subst err. reflexivity.
Qed.

(** ** Running the cache operations *)

Lemma trace_two (t : list Event) (a b : Event) : (t ++ [a]) ++ [b] = t ++ [a; b].
Proof. rewrite <- app_assoc. reflexivity. Qed.

(** [IndexedDBManager.get], case by case. *)
Lemma get_run (k : string) (w : World) :
  IndexedDBManager.get k w =
  match dataStore w !! k with
  | None =>
      (Returned JNull,
       mkWorld (state w) (dataStore w) (prefs w) (now w) (requests w)
               (trace w ++ [EvDbGet k]))
  | Some row =>
      if bool_decide (now w - timestamp row >= IndexedDBManager.EXPIRATION_TIME)
         || bool_decide (is_Some (reasonOf (data row)))
      then
        (Returned JNull,
         mkWorld (set_error false (state w)) (delete k (dataStore w)) (prefs w)
                 (now w) (requests w) (trace w ++ [EvDbGet k; EvDbDelete k]))
      else
        (Returned (data row),
         mkWorld (set_error false (state w)) (dataStore w) (prefs w)
                 (now w) (requests w) (trace w ++ [EvDbGet k]))
  end.
Proof.
  unfold IndexedDBManager.get, bind, emit, read, Date_now. cbn.
  destruct (dataStore w !! k) as [row|]; [|reflexivity].
  rewrite validate_run. cbn.
  destruct (bool_decide (now w - timestamp row >= _)); cbn.
  - rewrite trace_two. reflexivity.
  - destruct (reasonOf (data row)) as [r|]; cbn.
    + rewrite trace_two. reflexivity.
    + reflexivity.
Qed.

(** C4: [get] returns [null] when the key has no row; when the row is
    expired ([now - timestamp >= EXPIRATION_TIME]) or its payload fails the
    validator, [get] deletes the row and returns [null]; otherwise it returns
    the stored payload and leaves the store as it is. So a valid row written
    at [t] is returned at [t + EXPIRATION_TIME - 1], and is deleted, with
    [null] returned, at [t + EXPIRATION_TIME]. *)
Theorem get_absent_stale_or_stored (k : string) (w : World) :
  (dataStore w !! k = None ->
     fst (IndexedDBManager.get k w) = Returned JNull
     /\ dataStore (snd (IndexedDBManager.get k w)) = dataStore w)
  /\ (forall row, dataStore w !! k = Some row ->
        now w - timestamp row >= IndexedDBManager.EXPIRATION_TIME
        \/ is_Some (reasonOf (data row)) ->
        fst (IndexedDBManager.get k w) = Returned JNull
        /\ dataStore (snd (IndexedDBManager.get k w)) = delete k (dataStore w)
        /\ dataStore (snd (IndexedDBManager.get k w)) !! k = None)
  /\ (forall row, dataStore w !! k = Some row ->
        now w - timestamp row < IndexedDBManager.EXPIRATION_TIME ->
        reasonOf (data row) = None ->
        fst (IndexedDBManager.get k w) = Returned (data row)
        /\ dataStore (snd (IndexedDBManager.get k w)) = dataStore w)
  /\ (forall row, dataStore w !! k = Some row ->
        reasonOf (data row) = None ->
        (now w = timestamp row + IndexedDBManager.EXPIRATION_TIME - 1 ->
           fst (IndexedDBManager.get k w) = Returned (data row)
           /\ dataStore (snd (IndexedDBManager.get k w)) !! k = Some row)
        /\ (now w = timestamp row + IndexedDBManager.EXPIRATION_TIME ->
           fst (IndexedDBManager.get k w) = Returned JNull
           /\ dataStore (snd (IndexedDBManager.get k w)) !! k = None)).
Proof.
  rewrite get_run.
  assert (Hstale : forall row, dataStore w !! k = Some row ->
            now w - timestamp row >= IndexedDBManager.EXPIRATION_TIME
            \/ is_Some (reasonOf (data row)) ->
            bool_decide (now w - timestamp row >= IndexedDBManager.EXPIRATION_TIME)
            || bool_decide (is_Some (reasonOf (data row))) = true).
  { intros row _ [H|H].
    - rewrite (bool_decide_eq_true_2 _ H). reflexivity.
    - rewrite (bool_decide_eq_true_2 _ H). apply orb_true_r. }
  assert (Hfresh : forall row, dataStore w !! k = Some row ->
            now w - timestamp row < IndexedDBManager.EXPIRATION_TIME ->
            reasonOf (data row) = None ->
            bool_decide (now w - timestamp row >= IndexedDBManager.EXPIRATION_TIME)
            || bool_decide (is_Some (reasonOf (data row))) = false).
  { intros row _ Hlt Hok.
    rewrite bool_decide_eq_false_2 by lia.
    rewrite bool_decide_eq_false_2; [reflexivity|].
    rewrite Hok. intros [? ?]; discriminate. }
  split; [|split; [|split]].
  - intros ->. split; reflexivity.
  - intros row Hrow H. rewrite Hrow, (Hstale row Hrow H). cbn.
    repeat split. apply lookup_delete_eq.
  - intros row Hrow Hlt Hok. rewrite Hrow, (Hfresh row Hrow Hlt Hok).
    split; reflexivity.
  - intros row Hrow Hok. split; intros Hnow.
    + rewrite Hrow, (Hfresh row Hrow) by (lia || assumption). cbn.
      split; [reflexivity | assumption].
    + rewrite Hrow, (Hstale row Hrow) by (left; lia). cbn.
      split; [reflexivity | apply lookup_delete_eq].
Qed.

Lemma deleteAll_run (entries : list Row) (w : World) :
  IndexedDBManager.deleteAll entries w =
  (Returned tt,
   mkWorld (state w) (without entries (dataStore w)) (prefs w) (now w)
           (requests w)
           (trace w ++ map (fun entry => EvDbDelete (keyword entry)) entries)).
Proof.
  revert w. induction entries as [|entry rest IH]; intros w.
  - cbn. rewrite app_nil_r. destruct w; reflexivity.
  - cbn. unfold bind, emit, modify_store. cbn. rewrite IH. cbn.
    rewrite <- app_assoc. reflexivity.
Qed.

(** What a payload that passes the validator looks like. *)
Lemma reasonOf_None (p : JValue) :
  reasonOf p = None ->
  truthy p = true
  /\ truthy (prop "data" p) = true
  /\ truthy (first (prop "data" p)) = true
  /\ truthy (prop "examples" (first (prop "data" p))) = true
  /\ truthy (prop "category_count" (first (prop "data" p))) = true
  /\ forallb is_zero (Object_values (prop "category_count" (first (prop "data" p))))
     = false.
Proof.
  unfold reasonOf, validateApiResponse.
  destruct (truthy p); cbn; [|discriminate].
  destruct (truthy (prop "data" p)); cbn; [|discriminate].
  destruct (truthy (first (prop "data" p))); cbn; [|discriminate].
  destruct (truthy (prop "examples" (first (prop "data" p)))); cbn; [|discriminate].
  destruct (truthy (prop "category_count" (first (prop "data" p)))); cbn; [|discriminate].
  destruct (forallb is_zero _); cbn; [discriminate|].
  intros _. repeat split.
Qed.

Lemma save_invalid_run (k : string) (p : JValue) (w : World) :
  is_Some (reasonOf p) ->
  IndexedDBManager.save k p w =
  (Returned tt,
   mkWorld (set_error false (state w)) (dataStore w) (prefs w) (now w)
           (requests w) (trace w)).
Proof.
  intros [r Hr]. unfold IndexedDBManager.save, try_catch, bind.
  rewrite validate_run, Hr. reflexivity.
Qed.

Lemma save_valid_run (k : string) (p slim : JValue) (w : World) :
  reasonOf p = None ->
  IndexedDBManager.slimResults (prop "data" p) = inr slim ->
  IndexedDBManager.save k p w =
  (Returned tt,
   mkWorld (set_error false (state w))
           (<[k := mkRow k (JObj [("data", slim)]) (now w)]>
              (without (IndexedDBManager.entriesToDelete
                          (IndexedDBManager.rows (dataStore w)))
                       (dataStore w)))
           (prefs w) (now w) (requests w)
           (trace w ++ [EvDbGetAll]
              ++ map (fun entry => EvDbDelete (keyword entry))
                     (IndexedDBManager.entriesToDelete
                        (IndexedDBManager.rows (dataStore w)))
              ++ [EvDbPut k])).
Proof.
  intros Hok Hslim. destruct (reasonOf_None p Hok) as (Hp & Hdata & _).
  unfold IndexedDBManager.save, try_catch, bind.
  rewrite validate_run, Hok, Hp, Hdata, Hslim. cbn.
  rewrite deleteAll_run. cbn.
  rewrite <- !app_assoc. reflexivity.
Qed.

Lemma save_throws_run (k : string) (p : JValue) (e : Exn) (w : World) :
  reasonOf p = None ->
  IndexedDBManager.slimResults (prop "data" p) = inl e ->
  IndexedDBManager.save k p w =
  (Threw (Rejection ("Error in saveToIndexedDB: " +:+ to_string e)),
   mkWorld (set_error false (state w)) (dataStore w) (prefs w) (now w)
           (requests w) (trace w)).
Proof.
  intros Hok Hslim. destruct (reasonOf_None p Hok) as (Hp & Hdata & _).
  unfold IndexedDBManager.save, try_catch, bind.
  rewrite validate_run, Hok, Hp, Hdata, Hslim. reflexivity.
Qed.

(** C5: for a payload that fails the validator, [save] resolves without an
    error and leaves the store, every row of it, as it was; it does not even
    touch the database. *)
Theorem save_invalid_is_noop (k : string) (p : JValue) (w : World) :
  is_Some (reasonOf p) ->
  fst (IndexedDBManager.save k p w) = Returned tt
  /\ dataStore (snd (IndexedDBManager.save k p w)) = dataStore w
  /\ (forall key, dataStore (snd (IndexedDBManager.save k p w)) !! key
                  = dataStore w !! key)
  /\ trace (snd (IndexedDBManager.save k p w)) = trace w.
Proof.
  intros H. rewrite (save_invalid_run k p w H). cbn. repeat split.
Qed.

(** ** Slimming *)

Lemma slimExample_present (example : JValue) :
  present example = true ->
  IndexedDBManager.slimExample example = inr (projection example).
Proof. destruct example; cbn; intros H; try discriminate H; reflexivity. Qed.

Lemma Array_map_slimExample (examples : list JValue) :
  forallb present examples = true ->
  Array_map IndexedDBManager.slimExample examples = inr (map projection examples).
Proof.
  induction examples as [|example rest IH]; cbn; [reflexivity|].
  intros [Hx Hrest]%andb_true_iff.
  rewrite (slimExample_present example Hx), (IH Hrest). reflexivity.
Qed.

(** A shaped result is slimmed without an exception; the slimmed result is
    an object that keeps a truthy category count and the projections of the
    examples, when these are an array. *)
Lemma slimItem_shaped (item : JValue) :
  shapedItem item = true ->
  exists slim,
    IndexedDBManager.slimItem item = inr slim
    /\ truthy slim = true
    /\ (truthy (prop "category_count" item) = true ->
        prop "category_count" slim = prop "category_count" item)
    /\ (forall examples, prop "examples" item = JArr examples ->
        prop "examples" slim = JArr (map projection examples)).
Proof.
  unfold shapedItem, IndexedDBManager.slimItem.
  intros [Hitem Hexamples]%andb_true_iff.
  destruct (prop "examples" item) as [| | | | |examples|] eqn:E;
    destruct item; try discriminate Hitem;
    try (eexists; split; [reflexivity|];
         split; [reflexivity|]; split; [|intros ? [=]];
         intros ->; reflexivity).
  all: rewrite (Array_map_slimExample examples Hexamples).
  all: eexists; split; [reflexivity|]; split; [reflexivity|]; split.
  all: try (intros ->; reflexivity).
  all: intros ? [= <-]; destruct (truthy _); reflexivity.
Qed.

Lemma Array_map_slimItem (items : list JValue) :
  forallb shapedItem items = true ->
  exists slim,
    Array_map IndexedDBManager.slimItem items = inr slim
    /\ Forall2 (fun item s => IndexedDBManager.slimItem item = inr s) items slim.
Proof.
  induction items as [|item rest IH]; cbn.
  - intros _. exists []. split; [reflexivity | constructor].
  - intros [Hitem Hrest]%andb_true_iff.
    destruct (slimItem_shaped item Hitem) as (s & Hs & _).
    destruct (IH Hrest) as (ss & Hss & Hall).
    exists (s :: ss). rewrite Hs, Hss. split; [reflexivity|].
    constructor; assumption.
Qed.

Lemma reasonOf_None_intro (p : JValue) :
  truthy p = true ->
  truthy (prop "data" p) = true ->
  truthy (first (prop "data" p)) = true ->
  truthy (prop "examples" (first (prop "data" p))) = true ->
  truthy (prop "category_count" (first (prop "data" p))) = true ->
  forallb is_zero (Object_values (prop "category_count" (first (prop "data" p))))
  = false ->
  reasonOf p = None.
Proof.
  intros H1 H2 H3 H4 H5 H6. unfold reasonOf, validateApiResponse.
  rewrite H1, H2, H3, H4, H5, H6. reflexivity.
Qed.

(** Slimming a shaped payload that passes the validator, with an array of
    examples in its first result, gives a payload that passes it again. *)
Lemma slimResults_valid (p : JValue) (examples : list JValue) :
  reasonOf p = None ->
  shaped p = true ->
  prop "examples" (first (prop "data" p)) = JArr examples ->
  exists slim,
    IndexedDBManager.slimResults (prop "data" p) = inr slim
    /\ reasonOf (JObj [("data", slim)]) = None
    /\ prop "examples" (first slim) = JArr (map projection examples)
    /\ prop "category_count" (first slim)
       = prop "category_count" (first (prop "data" p)).
Proof.
  intros Hok Hshape Hexamples.
  destruct (reasonOf_None p Hok) as (_ & _ & Hfirst & _ & Hcount & Hzero).
  unfold shaped in Hshape.
  destruct (prop "data" p) as [| | | | |items|]; try discriminate Hshape.
  destruct items as [|item rest]; [discriminate Hfirst|].
  cbn in Hfirst, Hexamples, Hcount, Hzero.
  destruct (Array_map_slimItem _ Hshape) as (slim & Hslim & Hall).
  inversion Hall as [|? s ? ss Hs _]; subst.
  cbn in Hshape. apply andb_true_iff in Hshape as [Hitem _].
  destruct (slimItem_shaped item Hitem) as (s' & Hs' & Htruthy & Hkeep & Hproj).
  rewrite Hs in Hs'. injection Hs' as <-.
  exists (JArr (s :: ss)). unfold IndexedDBManager.slimResults.
  rewrite Hslim. cbn.
  split; [reflexivity|].
  specialize (Hkeep Hcount). specialize (Hproj examples Hexamples).
  split; [|split; assumption].
  apply reasonOf_None_intro; cbn; try reflexivity; try assumption.
  - rewrite Hproj. reflexivity.
  - rewrite Hkeep. assumption.
  - rewrite Hkeep. assumption.
Qed.

(** C6, as stated, fails: this payload passes the validator (its examples
    are truthy) but its examples are not an array, so [save] stores a first
    result without examples, which [get] then finds invalid, deletes, and
    answers with [null]. *)
Lemma roundtrip_fails_for_non_array_examples :
  reasonOf payload_odd = None
  /\ fst ((IndexedDBManager.save "neko" payload_odd ;;; IndexedDBManager.get "neko")
            world0)
     = Returned JNull.
Proof. split; vm_compute; reflexivity. Qed.

(** C6 (amended): for every payload that passes the validator and whose
    results are an array of present (non-null) results, each with present
    examples, the first of them with an array of examples: [save] under a
    key followed, less than [EXPIRATION_TIME] later, by [get] of that key
    returns a payload whose first result's examples are the projections of
    the source's first result's examples, each keeping exactly the fields
    image_url, sound_url, sentence, translation and deck_name. *)
Theorem save_then_get_roundtrip (k : string) (p : JValue)
    (examples : list JValue) (delay : Z) (w : World) :
  reasonOf p = None ->
  shaped p = true ->
  prop "examples" (first (prop "data" p)) = JArr examples ->
  0 <= delay < IndexedDBManager.EXPIRATION_TIME ->
  exists cached,
    fst ((IndexedDBManager.save k p ;;; advance delay ;;; IndexedDBManager.get k) w)
    = Returned cached
    /\ prop "examples" (first (prop "data" cached)) = JArr (map projection examples).
Proof.
  intros Hok Hshape Hexamples Hdelay.
  destruct (slimResults_valid p examples Hok Hshape Hexamples)
    as (slim & Hslim & Hvalid & Hproj & _).
  exists (JObj [("data", slim)]).
  unfold bind at 1. rewrite (save_valid_run k p slim w Hok Hslim).
  cbv beta iota. unfold bind, advance. cbv beta iota.
  rewrite get_run. cbn.
  rewrite lookup_insert_eq. cbn.
  rewrite bool_decide_eq_false_2 by lia.
  rewrite Hvalid. cbn. split; [reflexivity | assumption].
Qed.

(** ** What the store holds *)

Lemma storeInvariant_empty : storeInvariant ∅.
Proof. intros k row H. rewrite lookup_empty in H. discriminate H. Qed.

Lemma storeInvariant_delete (k : string) (store : gmap string Row) :
  storeInvariant store -> storeInvariant (delete k store).
Proof.
  intros Hinv k' row [_ H]%lookup_delete_Some. exact (Hinv k' row H).
Qed.

Lemma storeInvariant_without (entries : list Row) (store : gmap string Row) :
  storeInvariant store -> storeInvariant (without entries store).
Proof.
  revert store. induction entries as [|entry rest IH]; intros store Hinv.
  - exact Hinv.
  - cbn. apply IH, storeInvariant_delete, Hinv.
Qed.

Lemma storeInvariant_insert (k : string) (row : Row) (store : gmap string Row) :
  keyword row = k -> (exists source, writtenFrom source row) ->
  storeInvariant store -> storeInvariant (<[k := row]> store).
Proof.
  intros Hk Hrow Hinv k' row' H.
  apply lookup_insert_Some in H as [[<- <-]|[_ H]].
  - split; assumption.
  - exact (Hinv k' row' H).
Qed.

Lemma preserves_same_store {A} (m : M A) :
  (forall w, dataStore (snd (m w)) = dataStore w) -> preserves m.
Proof. intros H w Hinv. rewrite H. exact Hinv. Qed.

Lemma preserves_bind {A B} (m : M A) (k : A -> M B) :
  preserves m -> (forall a, preserves (k a)) -> preserves (bind m k).
Proof.
  intros Hm Hk w Hinv. unfold bind. specialize (Hm w Hinv).
  destruct (m w) as [[a| e |] w']; cbn in *; [apply Hk|..]; assumption.
Qed.

Lemma preserves_try_catch {A} (m : M A) (handler : Exn -> M A) :
  preserves m -> (forall e, preserves (handler e)) -> preserves (try_catch m handler).
Proof.
  intros Hm Hh w Hinv. unfold try_catch. specialize (Hm w Hinv).
  destruct (m w) as [[a| e |] w']; cbn in *; [|apply Hh|]; assumption.
Qed.

Lemma preserves_ret {A} (a : A) : preserves (ret a).
Proof. apply preserves_same_store. reflexivity. Qed.

Lemma preserves_throw {A} (e : Exn) : preserves (@throw A e).
Proof. apply preserves_same_store. reflexivity. Qed.

Lemma preserves_emit (e : Event) : preserves (emit e).
Proof. apply preserves_same_store. reflexivity. Qed.

Lemma preserves_read {A} (f : World -> A) : preserves (read f).
Proof. apply preserves_same_store. reflexivity. Qed.

Lemma preserves_modify_state (f : State -> State) : preserves (modify_state f).
Proof. apply preserves_same_store. reflexivity. Qed.

Lemma preserves_advance (ms : Z) : preserves (advance ms).
Proof. apply preserves_same_store. reflexivity. Qed.

Lemma preserves_validate (p : JValue) : preserves (validate p).
Proof. apply preserves_same_store. intros w. rewrite validate_run. reflexivity. Qed.

Lemma preserves_lift {A} (r : Sync A) : preserves (lift r).
Proof. destruct r; [apply preserves_throw | apply preserves_ret]. Qed.

Lemma preserves_if {A} (b : bool) (m1 m2 : M A) :
  preserves m1 -> preserves m2 -> preserves (if b then m1 else m2).
Proof. destruct b; auto. Qed.

Create HintDb preserves.
#[local] Hint Resolve preserves_ret preserves_throw preserves_emit preserves_read
  preserves_modify_state preserves_advance preserves_validate preserves_lift
  : preserves.

Ltac preserve :=
  repeat first
    [ solve [auto with preserves]
    | match goal with
      | |- preserves (match ?x with _ => _ end) => destruct x
      end
    | apply preserves_bind; [|intros ?]
    | apply preserves_try_catch; [|intros ?] ].

Lemma preserves_deleteEntry (k : string) : preserves (IndexedDBManager.deleteEntry k).
Proof. intros w Hinv. cbn. apply storeInvariant_delete, Hinv. Qed.

Lemma preserves_get (k : string) : preserves (IndexedDBManager.get k).
Proof.
  intros w Hinv. rewrite get_run.
  destruct (dataStore w !! k) as [row|]; [|exact Hinv].
  destruct (_ || _); cbn; [apply storeInvariant_delete|]; exact Hinv.
Qed.

Lemma preserves_save (k : string) (p : JValue) : preserves (IndexedDBManager.save k p).
Proof.
  intros w Hinv.
  destruct (reasonOf p) as [r|] eqn:Hreason.
  - rewrite save_invalid_run by eauto. exact Hinv.
  - destruct (IndexedDBManager.slimResults (prop "data" p)) as [e|slim] eqn:Hslim.
    + rewrite (save_throws_run k p e w Hreason Hslim). exact Hinv.
    + rewrite (save_valid_run k p slim w Hreason Hslim). cbn.
      apply storeInvariant_insert; [reflexivity| |].
      * exists p. split; [assumption|]. exists slim. split; [assumption|reflexivity].
      * apply storeInvariant_without, Hinv.
Qed.

#[local] Hint Resolve preserves_deleteEntry preserves_get preserves_save : preserves.

Section PipelineInvariant.

Variable encodeURIComponent : string -> string.
Variable remote : nat -> string -> Exchange.

Lemma preserves_fetch (url : string) : preserves (fetch remote url).
Proof.
  unfold fetch, answered. preserve.
  apply preserves_same_store. reflexivity.
Qed.

Lemma preserves_json (body : Body) : preserves (json body).
Proof. destruct body; cbn; auto with preserves. Qed.

Lemma preserves_sleep (ms : Z) : preserves (sleep ms).
Proof. unfold sleep. preserve. Qed.

Hint Resolve preserves_fetch preserves_json preserves_sleep : preserves.

Lemma preserves_fetchData (searchVocab url : string) (maxRetries fuel attempt : nat) :
  preserves (fetchData remote searchVocab url maxRetries fuel attempt).
Proof.
  revert attempt. induction fuel as [|fuel IH]; intros attempt.
  - apply preserves_same_store. reflexivity.
  - cbn [fetchData]. apply preserves_bind.
    + unfold IndexedDBManager.open, embedImageAndPlayAudio. preserve.
    + intros [|attempt']; [auto with preserves | apply IH].
Qed.

Lemma preserves_getImmersionKitData (vocab : string) (exactSearch : bool) :
  preserves (getImmersionKitData encodeURIComponent remote vocab exactSearch).
Proof.
  pose proof preserves_fetchData.
  unfold getImmersionKitData, state_vocab, chromeStorage_get. preserve.
Qed.

Lemma preserves_findExampleBySentence (sentence : string) (occurrenceIndex : Z) :
  preserves (findExampleBySentence encodeURIComponent remote sentence occurrenceIndex).
Proof.
  unfold findExampleBySentence. preserve.
Qed.

Lemma reachable_storeInvariant (w : World) :
  reachable encodeURIComponent remote w -> storeInvariant (dataStore w).
Proof.
  induction 1 as [w Hempty | w w' _ IH Hsame | w k _ IH | w k _ IH | w k p _ IH
                 | w vocab exactSearch _ IH | w sentence occurrenceIndex _ IH].
  - rewrite Hempty. apply storeInvariant_empty.
  - rewrite Hsame. exact IH.
  - apply preserves_get, IH.
  - apply preserves_deleteEntry, IH.
  - apply preserves_save, IH.
  - apply preserves_getImmersionKitData, IH.
  - apply preserves_findExampleBySentence, IH.
Qed.

End PipelineInvariant.

Lemma Array_map_slimExample_inv (examples slim : list JValue) :
  Array_map IndexedDBManager.slimExample examples = inr slim ->
  slim = map projection examples.
Proof.
  revert slim. induction examples as [|example rest IH]; cbn; intros slim H.
  - injection H as <-. reflexivity.
  - destruct (IndexedDBManager.slimExample example) as [e|s] eqn:Hs; [discriminate H|].
    destruct (Array_map IndexedDBManager.slimExample rest) as [e|ss]; [discriminate H|].
    injection H as <-. rewrite <- (IH ss eq_refl). f_equal.
    destruct example; cbn in Hs; try discriminate Hs; injection Hs as <-; reflexivity.
Qed.

(** The first result of a row, against the first result of its source. *)
Lemma writtenFrom_first (source : JValue) (row : Row) :
  writtenFrom source row ->
  prop "category_count" (first (prop "data" (data row)))
  = prop "category_count" (first (prop "data" source))
  /\ (forall examples,
        prop "examples" (first (prop "data" source)) = JArr examples ->
        prop "examples" (first (prop "data" (data row)))
        = JArr (map projection examples)).
Proof.
  intros (Hok & slim & Hslim & Hdata).
  destruct (reasonOf_None source Hok) as (_ & _ & Hfirst & _ & Hcount & _).
  rewrite Hdata. cbn [prop assoc String.eqb]. 
  unfold IndexedDBManager.slimResults in Hslim.
  destruct (prop "data" source) as [| | | | |items|]; try discriminate Hslim.
  destruct items as [|item rest]; [discriminate Hfirst|].
  cbn in Hfirst, Hcount, Hslim |- *.
  destruct (IndexedDBManager.slimItem item) as [e|s] eqn:Hs; [discriminate Hslim|].
  destruct (Array_map IndexedDBManager.slimItem rest) as [e|ss]; [discriminate Hslim|].
  injection Hslim as <-. cbn.
  unfold IndexedDBManager.slimItem in Hs. rewrite Hcount in Hs.
  destruct (prop "examples" item) as [| | | | |examples|] eqn:Hexamples;
    destruct item; try discriminate Hs; try discriminate Hfirst;
    try (injection Hs as <-; split; [reflexivity | intros ? [=]]).
  all: destruct (Array_map IndexedDBManager.slimExample examples) as [e|kept] eqn:Hkept;
    [discriminate Hs|].
  all: apply Array_map_slimExample_inv in Hkept as ->.
  all: injection Hs as <-; split; [reflexivity | intros ? [= <-]; reflexivity].
Qed.

(** C7, as stated, fails: the validator accepts an empty array of examples
    (an array is truthy), so [save] persists a row whose first result has no
    example. *)
Lemma persisted_entry_without_example :
  reachable encode_plain remote_blank
    (snd (IndexedDBManager.save "neko" payload_bare world0))
  /\ reasonOf payload_bare = None
  /\ exists row,
       dataStore (snd (IndexedDBManager.save "neko" payload_bare world0)) !! "neko"
       = Some row
       /\ prop "examples" (first (prop "data" (data row))) = JArr [].
Proof.
  split; [|split].
  - apply reach_save, reach_fresh. reflexivity.
  - reflexivity.
  - eexists. split; [vm_compute; reflexivity | reflexivity].
Qed.

(** C7 (amended): in every reachable state of the store, every persisted row
    sits under its own keyword and was written from a source payload that
    passed the validator; its first result keeps the source's category counts
    and, when the source's first result's examples are an array, the
    projections of all of them, in order (an array that may be empty). *)
Theorem persisted_rows_come_from_valid_payloads
    (encodeURIComponent : string -> string) (remote : nat -> string -> Exchange)
    (w : World) (k : string) (row : Row) :
  reachable encodeURIComponent remote w ->
  dataStore w !! k = Some row ->
  keyword row = k
  /\ exists source,
       reasonOf source = None
       /\ writtenFrom source row
       /\ prop "category_count" (first (prop "data" (data row)))
          = prop "category_count" (first (prop "data" source))
       /\ (forall examples,
             prop "examples" (first (prop "data" source)) = JArr examples ->
             prop "examples" (first (prop "data" (data row)))
             = JArr (map projection examples)).
Proof.
  intros Hreach Hrow.
  destruct (reachable_storeInvariant _ _ w Hreach k row Hrow) as [Hk [source Hsource]].
  split; [exact Hk|]. exists source.
  destruct (writtenFrom_first source row Hsource) as [Hcount Hexamples].
  split; [apply Hsource|]. split; [exact Hsource|].
  split; [exact Hcount | exact Hexamples].
Qed.

(** ** One run of [fetchData] *)

Section Rounds.

Variable remote : nat -> string -> Exchange.
Variables searchVocab url : string.
Variable maxRetries : nat.

Lemma fetch_run (w : World) :
  fetch remote url w =
  let w' := mkWorld (state w) (dataStore w) (prefs w)
                    (now w + elapsed (remote (requests w) url))
                    (S (requests w)) (trace w ++ [EvFetch url]) in
  match answer (remote (requests w) url) with
  | NetworkFailure message => (Threw (ErrorObj "TypeError" message), w')
  | HttpResponse status body => (Returned (status, body), w')
  end.
Proof.
  unfold fetch, bind, emit, read, answered. cbn.
  destruct (answer (remote (requests w) url)); reflexivity.
Qed.

(** A run that misses the cache and receives a payload the validator
    rejects: it waits and hands over to the next run, or gives up. *)
Lemma fetchData_rejected (fuel attempt : nat) (w : World)
    (status : Z) (p : JValue) (reason : string) :
  dataStore w !! searchVocab = None ->
  answer (remote (requests w) url) = HttpResponse status (Parsed p) ->
  ok status = true ->
  reasonOf p = Some reason ->
  fetchData remote searchVocab url maxRetries (S fuel) attempt w =
  if bool_decide (S attempt < maxRetries)%nat then
    fetchData remote searchVocab url maxRetries fuel (S attempt)
      (mkWorld (set_error false (state w)) (dataStore w) (prefs w)
               (now w + elapsed (remote (requests w) url) + 2000)
               (S (requests w))
               (trace w ++ [EvDbOpen; EvDbGet searchVocab; EvFetch url; EvWait 2000]))
  else
    (Threw (Error ("Fetch error: Invalid API response after "
                   +:+ pretty maxRetries +:+ " attempts: " +:+ reason)),
     mkWorld (set_error true (state w)) (dataStore w) (prefs w)
             (now w + elapsed (remote (requests w) url))
             (S (requests w))
             (trace w ++ [EvDbOpen; EvDbGet searchVocab; EvFetch url; EvEmbed])).
Proof.
  intros Hmiss Hanswer Hok Hreason.
  cbn [fetchData].
  unfold bind at 1. unfold try_catch at 1. unfold bind at 1.
  unfold IndexedDBManager.open, emit at 1. cbv beta iota.
  unfold bind at 1. rewrite get_run. cbn [dataStore state prefs now requests trace].
  rewrite Hmiss. cbv beta iota.
  cbn [cacheHit truthy andb].
  unfold try_catch at 1. unfold bind at 1.
  rewrite fetch_run. cbn [dataStore state prefs now requests trace].
  rewrite Hanswer. cbv beta iota zeta. cbn [fst snd]. rewrite Hok. cbn [negb].
  unfold bind at 1. unfold json, ret at 1. cbv beta iota.
  unfold bind at 1. rewrite validate_run, Hreason. cbv beta iota.
  cbn [dataStore state prefs now requests trace].
  destruct (bool_decide (S attempt < maxRetries)%nat).
  - unfold sleep, bind, emit, advance, ret. cbn.
    rewrite <- !app_assoc. reflexivity.
  - unfold throw, bind, modify_state, embedImageAndPlayAudio, emit. cbn.
    rewrite <- !app_assoc. reflexivity.
Qed.

End Rounds.

Section Retries.

Variable remote : nat -> string -> Exchange.
Variables searchVocab url : string.
Variable maxRetries : nat.

(** [n] rejected payloads in a row, with attempts to spare: [n] runs, each
    ending in a wait of two seconds, then the next run. *)
Lemma fetchData_rejections (n : nat) :
  forall (fuel attempt : nat) (w : World),
    dataStore w !! searchVocab = None ->
    (forall i, (i < n)%nat -> rejectedAt remote url w i) ->
    (attempt + n < maxRetries)%nat ->
    exists w',
      fetchData remote searchVocab url maxRetries (n + fuel) attempt w
      = fetchData remote searchVocab url maxRetries fuel (attempt + n) w'
      /\ dataStore w' = dataStore w
      /\ prefs w' = prefs w
      /\ requests w' = (requests w + n)%nat
      /\ trace w' = trace w ++ concat (replicate n (retryRound searchVocab url)).
Proof.
  induction n as [|n IH]; intros fuel attempt w Hmiss Hrejected Hspare.
  - exists w. rewrite Nat.add_0_r, Nat.add_0_r, app_nil_r. repeat split.
  - destruct (Hrejected 0%nat ltac:(lia)) as (status & p & reason & Hanswer & Hok & Hreason).
    rewrite Nat.add_0_r in Hanswer.
    cbn [Nat.add].
    rewrite (fetchData_rejected remote searchVocab url maxRetries (n + fuel) attempt
               w status p reason Hmiss Hanswer Hok Hreason).
    rewrite bool_decide_eq_true_2 by lia.
    match goal with |- context [fetchData _ _ _ _ _ _ ?w1] => set (w1' := w1) end.
    destruct (IH fuel (S attempt) w1') as (w' & Hrun & Hstore & Hprefs & Hrequests & Htrace).
    + exact Hmiss.
    + intros i Hi. destruct (Hrejected (S i) ltac:(lia)) as (s' & p' & r' & H1 & H2 & H3).
      exists s', p', r'. subst w1'. cbn [requests].
      replace (S (requests w) + i)%nat with (requests w + S i)%nat by lia.
      repeat split; assumption.
    + lia.
    + exists w'. replace (attempt + S n)%nat with (S attempt + n)%nat by lia.
      rewrite Hrun, Hstore, Hprefs, Hrequests, Htrace. subst w1'. cbn.
      rewrite <- app_assoc. repeat split. lia.
Qed.

End Retries.

Section Lookup.

Variable encodeURIComponent : string -> string.
Variable remote : nat -> string -> Exchange.

(** A run that misses the cache and whose request fails: the exception is
    wrapped, the error is flagged and shown, and the run ends. *)
Lemma fetchData_failed (searchVocab url : string) (maxRetries fuel attempt : nat)
    (w : World) (message : string) :
  dataStore w !! searchVocab = None ->
  failure (answer (remote (requests w) url)) = Some message ->
  fetchData remote searchVocab url maxRetries (S fuel) attempt w =
  (Threw (Error ("Fetch error: " +:+ message)),
   mkWorld (set_error true (state w)) (dataStore w) (prefs w)
           (now w + elapsed (remote (requests w) url))
           (S (requests w))
           (trace w ++ lastRound searchVocab url)).
Proof.
  intros Hmiss Hfailure.
  cbn [fetchData].
  unfold bind at 1. unfold try_catch at 1. unfold bind at 1.
  unfold IndexedDBManager.open, emit at 1. cbv beta iota.
  unfold bind at 1. rewrite get_run. cbn [dataStore state prefs now requests trace].
  rewrite Hmiss. cbv beta iota.
  cbn [cacheHit truthy andb].
  unfold try_catch at 1. unfold bind at 1.
  rewrite fetch_run. cbn [dataStore state prefs now requests trace].
  unfold failure in Hfailure.
  destruct (answer (remote (requests w) url)) as [m|status body].
  - injection Hfailure as <-. cbv beta iota zeta.
    unfold throw, bind, modify_state, embedImageAndPlayAudio, emit, lastRound. cbn.
    rewrite <- !app_assoc. reflexivity.
  - cbv beta iota zeta. cbn [fst snd].
    destruct (negb (ok status)).
    + injection Hfailure as <-.
      unfold throw, bind, modify_state, embedImageAndPlayAudio, emit, lastRound. cbn.
      rewrite <- !app_assoc. reflexivity.
    + destruct body as [m|p]; [|discriminate Hfailure].
      injection Hfailure as <-.
      unfold throw, bind, json, modify_state, embedImageAndPlayAudio, emit, lastRound.
      cbn. rewrite <- !app_assoc. reflexivity.
Qed.

(** [getImmersionKitData] up to its call of [fetchData]. *)
Lemma getImmersionKitData_run (term : string) (exactSearch : bool) (w : World) :
  getImmersionKitData encodeURIComponent remote term exactSearch w =
  let w' := mkWorld (state w) (dataStore w) (prefs w) (now w) (requests w)
                    (trace w ++ [EvPrefsGet (vocab (state w))]) in
  if isBlacklisted (prefs w !! vocab (state w)) then (Returned tt, w')
  else fetchData remote (searchVocabOf term exactSearch)
         (urlOf encodeURIComponent (searchVocabOf term exactSearch)) 5 5 0 w'.
Proof.
  unfold getImmersionKitData, state_vocab, chromeStorage_get, bind, read, emit.
  cbn [dataStore state prefs now requests trace].
  destruct (isBlacklisted _); reflexivity.
Qed.

(** C1: when the term is not blacklisted, nothing is cached for it and the
    remote API answers every request with a payload that the validator
    rejects, one call of [getImmersionKitData] makes exactly five fetches,
    with a wait of 2000 ms between consecutive ones, and then fails with
    the error "Invalid API response after 5 attempts", which carries the
    reason given for the fifth payload. *)
Theorem lookup_gives_up_after_five_attempts (term : string) (exactSearch : bool)
    (w : World) :
  let key := searchVocabOf term exactSearch in
  let url := urlOf encodeURIComponent key in
  let run := getImmersionKitData encodeURIComponent remote term exactSearch w in
  isBlacklisted (prefs w !! vocab (state w)) = false ->
  dataStore w !! key = None ->
  (forall n, rejectedAt remote url w n) ->
  exists status p reason,
    answer (remote (requests w + 4)%nat url) = HttpResponse status (Parsed p)
    /\ reasonOf p = Some reason
    /\ fst run
       = Threw (Error ("Fetch error: Invalid API response after 5 attempts: "
                       +:+ reason))
    /\ trace (snd run)
       = trace w ++ [EvPrefsGet (vocab (state w))]
           ++ concat (replicate 4 (retryRound key url)) ++ lastRound key url
    /\ List.filter onNetwork (drop (length (trace w)) (trace (snd run)))
       = [EvFetch url; EvWait 2000; EvFetch url; EvWait 2000; EvFetch url;
          EvWait 2000; EvFetch url; EvWait 2000; EvFetch url]
    /\ requests (snd run) = (requests w + 5)%nat.
Proof.
  intros key url run Hlisted Hmiss Hrejected. subst run.
  rewrite getImmersionKitData_run, Hlisted. cbv zeta. fold key. fold url.
  match goal with |- context [fetchData _ _ _ _ _ _ ?w1] => set (w1' := w1) end.
  destruct (fetchData_rejections remote key url 5 4 1 0 w1') as
    (w' & Hrun & Hstore & _ & Hrequests & Htrace).
  { exact Hmiss. }
  { intros i _. exact (Hrejected i). }
  { lia. }
  cbn [Nat.add] in Hrun. rewrite Hrun.
  destruct (Hrejected 4%nat) as (status & p & reason & Hanswer & Hok & Hreason).
  exists status, p, reason.
  assert (H4 : requests w' = (requests w + 4)%nat) by (rewrite Hrequests; reflexivity).
  rewrite <- H4 in Hanswer.
  rewrite (fetchData_rejected remote key url 5 0 4 w' status p reason)
    by (rewrite ?Hstore; assumption).
  rewrite bool_decide_eq_false_2 by lia. cbn [fst snd trace requests].
  rewrite H4 in Hanswer.
  assert (Htr : trace w' ++ [EvDbOpen; EvDbGet key; EvFetch url; EvEmbed]
                = trace w ++ [EvPrefsGet (vocab (state w))]
                    ++ concat (replicate 4 (retryRound key url)) ++ lastRound key url).
  { rewrite Htrace. subst w1'. cbn [trace]. rewrite <- !app_assoc. reflexivity. }
  rewrite Htr.
  repeat split; try assumption; try reflexivity.
  - rewrite drop_app_length. reflexivity.
  - lia.
Qed.

(** C9: when, after any number (below five) of rejected payloads, a request
    fails -- the fetch is rejected, the status is not a 2xx one, or the body
    is not JSON -- the lookup makes no further fetch: it ends at once
    with the failure wrapped in the error "Fetch error: ...". *)
Theorem lookup_failure_is_not_retried (term : string) (exactSearch : bool)
    (w : World) (n : nat) (message : string) :
  let key := searchVocabOf term exactSearch in
  let url := urlOf encodeURIComponent key in
  let run := getImmersionKitData encodeURIComponent remote term exactSearch w in
  isBlacklisted (prefs w !! vocab (state w)) = false ->
  dataStore w !! key = None ->
  (n < 5)%nat ->
  (forall i, (i < n)%nat -> rejectedAt remote url w i) ->
  failure (answer (remote (requests w + n)%nat url)) = Some message ->
  fst run = Threw (Error ("Fetch error: " +:+ message))
  /\ trace (snd run)
     = trace w ++ [EvPrefsGet (vocab (state w))]
         ++ concat (replicate n (retryRound key url)) ++ lastRound key url
  /\ requests (snd run) = (requests w + n + 1)%nat
  /\ length (List.filter isFetch (drop (length (trace w)) (trace (snd run))))
     = S n.
Proof.
  intros key url run Hlisted Hmiss Hn Hrejected Hfailure. subst run.
  rewrite getImmersionKitData_run, Hlisted. cbv zeta. fold key. fold url.
  match goal with |- context [fetchData _ _ _ _ _ _ ?w1] => set (w1' := w1) end.
  destruct (fetchData_rejections remote key url 5 n (5 - n) 0 w1') as
    (w' & Hrun & Hstore & _ & Hrequests & Htrace).
  { exact Hmiss. }
  { exact Hrejected. }
  { lia. }
  replace (n + (5 - n))%nat with 5%nat in Hrun by lia. rewrite Hrun.
  assert (Hn' : requests w' = (requests w + n)%nat) by (rewrite Hrequests; reflexivity).
  destruct (5 - n)%nat as [|fuel] eqn:Hfuel; [lia|].
  rewrite (fetchData_failed key url 5 fuel (0 + n) w' message)
    by (rewrite ?Hstore, ?Hn'; assumption).
  cbn [fst snd trace requests].
  assert (Htr : trace w' ++ lastRound key url
                = trace w ++ [EvPrefsGet (vocab (state w))]
                    ++ concat (replicate n (retryRound key url)) ++ lastRound key url).
  { rewrite Htrace. subst w1'. cbn [trace]. rewrite <- !app_assoc. reflexivity. }
  rewrite Htr, drop_app_length.
  repeat split; try reflexivity.
  - lia.
  - cbn [app List.filter isFetch]. rewrite List.filter_app.
    rewrite length_app. cbn [lastRound List.filter isFetch length].
    clear. induction n as [|n IH]; [reflexivity|].
    cbn [replicate concat retryRound app List.filter isFetch length] in *.
    lia.
Qed.

Lemma isBlacklisted_flag (record flag : string) :
  split_comma record !! 1%nat = Some flag ->
  parseInt10 flag = Some 2 ->
  isBlacklisted (Some record) = true.
Proof.
  intros Hflag Hparse. unfold isBlacklisted. rewrite Hflag.
  rewrite (bool_decide_eq_true_2 _ Hparse).
  apply lookup_lt_Some in Hflag.
  rewrite (bool_decide_eq_true_2 _ Hflag).
  destruct record; [cbn in Hflag; lia | reflexivity].
Qed.

(** C8 (amended): for every call [getImmersionKitData(T, exactSearch)] made
    while T is the current word [state.vocab] -- the key under which the
    function reads the preferences -- and whose record has a second
    comma-separated field that reads 2: the call makes no fetch and no
    access to the IndexedDB store (its one platform call is the read of the
    preferences), changes neither [state] nor the store, and returns
    without a value and without an error. *)
Theorem blacklisted_lookup_short_circuits (term : string) (exactSearch : bool)
    (w : World) (record flag : string) :
  let run := getImmersionKitData encodeURIComponent remote term exactSearch w in
  vocab (state w) = term ->
  prefs w !! term = Some record ->
  split_comma record !! 1%nat = Some flag ->
  parseInt10 flag = Some 2 ->
  fst run = Returned tt
  /\ trace (snd run) = trace w ++ [EvPrefsGet term]
  /\ List.filter isFetch (drop (length (trace w)) (trace (snd run))) = []
  /\ List.filter onStore (drop (length (trace w)) (trace (snd run))) = []
  /\ requests (snd run) = requests w
  /\ dataStore (snd run) = dataStore w
  /\ state (snd run) = state w.
Proof.
  intros run Hterm Hrecord Hflag Hparse. subst run.
  rewrite getImmersionKitData_run, Hterm, Hrecord.
  rewrite (isBlacklisted_flag record flag Hflag Hparse). cbn.
  rewrite drop_app_length. repeat split.
Qed.

End Lookup.

(** C8, as stated, fails: the function reads the preferences under
    [state.vocab], not under its argument; here the record of [neko] carries
    the flag 2 while the page shows [inu], and the lookup of [neko] goes to
    the store and to the network (five fetches, all rejected). *)
Lemma blacklist_is_read_for_the_current_word :
  prefs world_inu !! "neko" = Some "x,2"
  /\ isBlacklisted (Some "x,2") = true
  /\ length (List.filter isFetch
               (trace (snd (getImmersionKitData encode_plain remote_blank
                              "neko" false world_inu)))) = 5%nat
  /\ length (List.filter onStore
               (trace (snd (getImmersionKitData encode_plain remote_blank
                              "neko" false world_inu)))) = 10%nat.
Proof. repeat split; vm_compute; reflexivity. Qed.

(** ** findExampleBySentence *)

Section FavoriteLookup.

Variable encodeURIComponent : string -> string.
Variable remote : nat -> string -> Exchange.

(** The function makes one fetch and returns a value, computed from the
    response alone. *)
Lemma findExampleBySentence_run (sentence : string) (occurrenceIndex : Z)
    (w : World) :
  let searchUrl := urlOf encodeURIComponent (quoted sentence) in
  findExampleBySentence encodeURIComponent remote sentence occurrenceIndex w =
  (Returned
     match answer (remote (requests w) searchUrl) with
     | NetworkFailure _ => JNull
     | HttpResponse status body =>
         if negb (ok status) then JNull
         else match body with
              | Malformed _ => JNull
              | Parsed jsonData =>
                  if truthy (prop "data" jsonData) then
                    match allMatches sentence (prop "data" jsonData) with
                    | inl _ => JNull
                    | inr matchingExamples =>
                        if bool_decide (Z.of_nat (length matchingExamples)
                                        > occurrenceIndex)
                        then at_index matchingExamples occurrenceIndex
                        else JNull
                    end
                  else JNull
              end
     end,
   mkWorld (state w) (dataStore w) (prefs w)
           (now w + elapsed (remote (requests w) searchUrl))
           (S (requests w)) (trace w ++ [EvFetch searchUrl])).
Proof.
  intros searchUrl. unfold findExampleBySentence. fold searchUrl.
  unfold bind at 1. unfold try_catch at 1. unfold bind at 1.
  rewrite fetch_run. cbv zeta.
  destruct (answer (remote (requests w) searchUrl)) as [m|status body];
    [reflexivity|].
  cbv beta iota. cbn [fst snd].
  destruct (negb (ok status)); [reflexivity|].
  destruct body as [m|jsonData]; [reflexivity|].
  unfold bind at 1. unfold json, ret at 1. cbv beta iota.
  destruct (truthy (prop "data" jsonData)); [|reflexivity].
  unfold bind at 1.
  destruct (allMatches sentence (prop "data" jsonData)) as [e|matchingExamples];
    [reflexivity|].
  unfold lift, ret at 1. cbv beta iota.
  destruct (bool_decide _); reflexivity.
Qed.

(** C10: [findExampleBySentence] never throws: it makes one fetch and
    returns a value; when that fetch fails (rejected request, status that
    is not a 2xx one, body that is not JSON) the value is [null], the same
    value as for a response with fewer than [occurrenceIndex + 1] examples
    whose sentence is the one looked for. *)
Theorem findExampleBySentence_never_throws (sentence : string)
    (occurrenceIndex : Z) (w : World) :
  let searchUrl := urlOf encodeURIComponent (quoted sentence) in
  let run := findExampleBySentence encodeURIComponent remote sentence
               occurrenceIndex w in
  (exists example, fst run = Returned example)
  /\ trace (snd run) = trace w ++ [EvFetch searchUrl]
  /\ (forall message,
        failure (answer (remote (requests w) searchUrl)) = Some message ->
        fst run = Returned JNull)
  /\ (forall status jsonData matchingExamples,
        answer (remote (requests w) searchUrl)
        = HttpResponse status (Parsed jsonData) ->
        ok status = true ->
        truthy (prop "data" jsonData) = true ->
        allMatches sentence (prop "data" jsonData) = inr matchingExamples ->
        Z.of_nat (length matchingExamples) < occurrenceIndex + 1 ->
        fst run = Returned JNull).
Proof.
  intros searchUrl run. subst run.
  rewrite findExampleBySentence_run. fold searchUrl. cbn [fst snd trace].
  split; [eexists; reflexivity|]. split; [reflexivity|]. split.
  - intros message Hfailure. unfold failure in Hfailure.
    destruct (answer (remote (requests w) searchUrl)) as [m|status body];
      [reflexivity|].
    destruct (negb (ok status)); [reflexivity|].
    destruct body; [reflexivity | discriminate Hfailure].
  - intros status jsonData matchingExamples -> -> -> -> Hfew. cbn [negb].
    rewrite bool_decide_eq_false_2 by lia. reflexivity.
Qed.

End FavoriteLookup.

(** ** The lookup always ends *)

Lemma completes_bind {A B} (m : M A) (k : A -> M B) (Q : A -> Prop) (R : B -> Prop) :
  completes m Q -> (forall a, Q a -> completes (k a) R) -> completes (bind m k) R.
Proof.
  intros Hm Hk w. unfold bind. specialize (Hm w).
  destruct (m w) as [[a|e|] w']; cbn in *; [apply (Hk a Hm) | exact I | exact Hm].
Qed.

Lemma completes_try_catch {A} (m : M A) (handler : Exn -> M A) (Q : A -> Prop) :
  completes m Q -> (forall e, completes (handler e) Q) ->
  completes (try_catch m handler) Q.
Proof.
  intros Hm Hh w. unfold try_catch. specialize (Hm w).
  destruct (m w) as [[a|e|] w']; cbn in *; [exact Hm | apply Hh | exact Hm].
Qed.

Lemma completes_weaken {A} (m : M A) (Q R : A -> Prop) :
  completes m Q -> (forall a, Q a -> R a) -> completes m R.
Proof.
  intros Hm HQR w. specialize (Hm w).
  destruct (fst (m w)); [apply HQR, Hm | exact I | exact Hm].
Qed.

Lemma completes_ret {A} (a : A) (Q : A -> Prop) : Q a -> completes (ret a) Q.
Proof. intros H w. exact H. Qed.

Lemma completes_throw {A} (e : Exn) (Q : A -> Prop) : completes (throw e) Q.
Proof. intros w. exact I. Qed.

(** An operation that returns in every world. *)
Lemma completes_returns {A} (m : M A) :
  (forall w, exists a, fst (m w) = Returned a) -> completes m (fun _ => True).
Proof. intros H w. destruct (H w) as [a ->]. exact I. Qed.

Lemma completes_seq {A B} (m : M A) (k : M B) (R : B -> Prop) :
  completes m (fun _ => True) -> completes k R -> completes (m ;;; k) R.
Proof. intros Hm Hk. apply (completes_bind m _ (fun _ => True)); auto. Qed.

Lemma completes_emit (e : Event) : completes (emit e) (fun _ => True).
Proof. apply completes_returns. intros w. eexists. reflexivity. Qed.

Lemma completes_modify_state (f : State -> State) :
  completes (modify_state f) (fun _ => True).
Proof. apply completes_returns. intros w. eexists. reflexivity. Qed.

Lemma completes_validate (p : JValue) : completes (validate p) (fun _ => True).
Proof.
  apply completes_returns. intros w. rewrite validate_run. eexists. reflexivity.
Qed.

Lemma completes_sleep (ms : Z) : completes (sleep ms) (fun _ => True).
Proof. apply completes_returns. intros w. eexists. reflexivity. Qed.

Lemma completes_get (k : string) : completes (IndexedDBManager.get k) (fun _ => True).
Proof.
  apply completes_returns. intros w. rewrite get_run.
  destruct (dataStore w !! k); [destruct (_ || _)|]; eexists; reflexivity.
Qed.

Lemma completes_save (k : string) (p : JValue) :
  completes (IndexedDBManager.save k p) (fun _ => True).
Proof.
  intros w. destruct (reasonOf p) as [r|] eqn:Hreason.
  - rewrite save_invalid_run by eauto. exact I.
  - destruct (IndexedDBManager.slimResults (prop "data" p)) as [e|slim] eqn:Hslim.
    + rewrite (save_throws_run k p e w Hreason Hslim). exact I.
    + rewrite (save_valid_run k p slim w Hreason Hslim). exact I.
Qed.

Lemma completes_fetch (remote : nat -> string -> Exchange) (url : string) :
  completes (fetch remote url) (fun _ => True).
Proof.
  intros w. rewrite fetch_run. cbv zeta.
  destruct (answer (remote (requests w) url)); exact I.
Qed.

Lemma completes_json (body : Body) : completes (json body) (fun _ => True).
Proof. intros w. destruct body; exact I. Qed.

(** A run of [fetchData] ends when its fuel covers the attempts that are
    left; after a rejected payload a further run is only started while
    attempts are left. *)
Lemma fetchData_completes (remote : nat -> string -> Exchange)
    (searchVocab url : string) (maxRetries fuel attempt : nat) :
  (1 <= fuel)%nat -> (maxRetries <= attempt + fuel)%nat ->
  completes (fetchData remote searchVocab url maxRetries fuel attempt)
            (fun _ => True).
Proof.
  revert attempt. induction fuel as [|fuel IH]; intros attempt Hfuel Hcover; [lia|].
  cbn [fetchData].
  apply (completes_bind _ _
           (fun next => next = Finished
                        \/ (next = Again (S attempt) /\ (S attempt < maxRetries)%nat))).
  - apply completes_try_catch.
    + apply completes_seq; [apply completes_emit|].
      apply (completes_bind _ _ (fun _ => True)); [apply completes_get|].
      intros cachedData _. destruct (cacheHit cachedData).
      * repeat (apply completes_seq; [apply completes_modify_state|]).
        apply completes_ret. left. reflexivity.
      * apply completes_try_catch; [|intros e; apply completes_throw].
        apply (completes_bind _ _ (fun _ => True)); [apply completes_fetch|].
        intros response _. destruct (negb (ok (fst response))); [apply completes_throw|].
        apply (completes_bind _ _ (fun _ => True)); [apply completes_json|].
        intros jsonData _.
        apply (completes_bind _ _ (fun _ => True)); [apply completes_validate|].
        intros [validationError|] _.
        -- case_bool_decide as Hspare; [|apply completes_throw].
           apply completes_seq; [apply completes_sleep|].
           apply completes_ret. right. split; [reflexivity | exact Hspare].
        -- repeat (apply completes_seq; [apply completes_modify_state|]).
           apply completes_seq; [apply completes_save|].
           apply completes_ret. left. reflexivity.
    + intros e. apply completes_seq; [apply completes_modify_state|].
      apply completes_seq; [apply completes_emit|]. apply completes_throw.
  - intros next [->|[-> Hspare]].
    + apply completes_ret. exact I.
    + apply IH; lia.
Qed.

(** Every call of [getImmersionKitData] ends: it returns or it throws. *)
Lemma getImmersionKitData_completes (encodeURIComponent : string -> string)
    (remote : nat -> string -> Exchange) (term : string) (exactSearch : bool)
    (w : World) :
  fst (getImmersionKitData encodeURIComponent remote term exactSearch w)
  <> OutOfFuel.
Proof.
  rewrite getImmersionKitData_run. cbv zeta.
  destruct (isBlacklisted _); [discriminate|].
  match goal with |- fst (?m ?w1) <> _ =>
    pose proof (fetchData_completes remote
                  (searchVocabOf term exactSearch)
                  (urlOf encodeURIComponent (searchVocabOf term exactSearch))
                  5 5 0 ltac:(lia) ltac:(lia) w1) as H
  end.
  intros Hout. rewrite Hout in H. exact H.
Qed.

(** ** The theorems at work on sample inputs *)

Lemma lookup_gives_up_after_five_attempts_witness :
  fst (getImmersionKitData encode_plain remote_blank "neko" false world0)
  = Threw (Error "Fetch error: Invalid API response after 5 attempts: Blank API")
  /\ requests (snd (getImmersionKitData encode_plain remote_blank "neko" false world0))
     = 5%nat.
Proof.
  destruct (lookup_gives_up_after_five_attempts encode_plain remote_blank
              "neko" false world0)
    as (status & p & reason & Hanswer & Hreason & Hrun & _ & _ & Hrequests).
  - reflexivity.
  - reflexivity.
  - intros n. exists 200, payload_blank, "Blank API". repeat split.
  - injection Hanswer as _ <-. injection Hreason as <-.
    split; [exact Hrun | exact Hrequests].
Defined.

Lemma get_absent_stale_or_stored_witness :
  dataStore world_cached !! "neko" = Some row_neko
  /\ reasonOf (data row_neko) = None
  /\ now world_cached = timestamp row_neko + IndexedDBManager.EXPIRATION_TIME - 1
  /\ fst (IndexedDBManager.get "neko" world_cached) = Returned (data row_neko).
Proof.
  assert (Hrow : dataStore world_cached !! "neko" = Some row_neko) by reflexivity.
  assert (Hvalid : reasonOf (data row_neko) = None) by reflexivity.
  assert (Hnow : now world_cached
                 = timestamp row_neko + IndexedDBManager.EXPIRATION_TIME - 1)
    by reflexivity.
  destruct (get_absent_stale_or_stored "neko" world_cached) as (_ & _ & _ & H).
  destruct (H row_neko Hrow Hvalid) as [Hfresh _].
  destruct (Hfresh Hnow) as [Hget _].
  repeat split; assumption.
Defined.

Lemma save_invalid_is_noop_witness :
  is_Some (reasonOf payload_blank)
  /\ fst (IndexedDBManager.save "neko" payload_blank world_cached) = Returned tt
  /\ dataStore (snd (IndexedDBManager.save "neko" payload_blank world_cached))
     = dataStore world_cached.
Proof.
  assert (H : is_Some (reasonOf payload_blank)) by (eexists; reflexivity).
  destruct (save_invalid_is_noop "neko" payload_blank world_cached H)
    as (Hrun & Hstore & _).
  repeat split; assumption.
Defined.

Lemma save_then_get_roundtrip_witness :
  exists cached,
    fst ((IndexedDBManager.save "neko" payload_hit ;;; advance 5
          ;;; IndexedDBManager.get "neko") world0) = Returned cached
    /\ prop "examples" (first (prop "data" cached))
       = JArr (map projection [JObj [("sentence", JStr "x")]]).
Proof.
  apply (save_then_get_roundtrip "neko" payload_hit
           [JObj [("sentence", JStr "x")]] 5 world0).
  - reflexivity.
  - reflexivity.
  - reflexivity.
  - unfold IndexedDBManager.EXPIRATION_TIME. lia.
Defined.

Lemma persisted_rows_come_from_valid_payloads_witness :
  keyword row_neko = "neko"
  /\ exists source, reasonOf source = None /\ writtenFrom source row_neko.
Proof.
  destruct (persisted_rows_come_from_valid_payloads encode_plain remote_blank
              (snd (IndexedDBManager.save "neko" payload_hit world0))
              "neko" row_neko)
    as (Hk & source & Hvalid & Hwritten & _).
  - apply reach_save, reach_fresh. reflexivity.
  - vm_compute. reflexivity.
  - split; [exact Hk|]. exists source. split; assumption.
Defined.

Lemma blacklisted_lookup_short_circuits_witness :
  fst (getImmersionKitData encode_plain remote_blank "neko" true
         world_neko_blacklisted) = Returned tt
  /\ trace (snd (getImmersionKitData encode_plain remote_blank "neko" true
                   world_neko_blacklisted)) = [EvPrefsGet "neko"].
Proof.
  destruct (blacklisted_lookup_short_circuits encode_plain remote_blank
              "neko" true world_neko_blacklisted "x,2" "2")
    as (Hrun & Htrace & _).
  - reflexivity.
  - reflexivity.
  - reflexivity.
  - reflexivity.
  - split; [exact Hrun | exact Htrace].
Defined.

Lemma lookup_failure_is_not_retried_witness :
  fst (getImmersionKitData encode_plain remote_down "neko" false world0)
  = Threw (Error "Fetch error: HTTP error! status: 503")
  /\ requests (snd (getImmersionKitData encode_plain remote_down "neko" false world0))
     = 1%nat.
Proof.
  destruct (lookup_failure_is_not_retried encode_plain remote_down
              "neko" false world0 0 "HTTP error! status: 503")
    as (Hrun & _ & Hrequests & _).
  - reflexivity.
  - reflexivity.
  - lia.
  - intros i Hi. lia.
  - reflexivity.
  - split; [exact Hrun | exact Hrequests].
Defined.

Lemma findExampleBySentence_never_throws_witness :
  failure (answer (remote_down 0 (urlOf encode_plain (quoted "x"))))
  = Some "HTTP error! status: 503"
  /\ fst (findExampleBySentence encode_plain remote_down "x" 0 world0)
     = Returned JNull.
Proof.
  destruct (findExampleBySentence_never_throws encode_plain remote_down "x" 0 world0)
    as (_ & _ & Hfailure & _).
  split; [reflexivity|].
  apply (Hfailure "HTTP error! status: 503"). reflexivity.
Defined.

(** * Further properties of the cache *)

(** ** Sorting and scanning *)

Lemma insert_sorted_Permutation {A} (le : A -> A -> bool) (x : A) (l : list A) :
  insert_sorted le x l ≡ₚ x :: l.
Proof.
  induction l as [|y rest IH]; cbn; [reflexivity|].
  destruct (le x y); [reflexivity|].
  rewrite IH. apply perm_swap.
Qed.

Lemma sort_by_Permutation {A} (le : A -> A -> bool) (l : list A) :
  sort_by le l ≡ₚ l.
Proof.
  induction l as [|x rest IH]; cbn; [reflexivity|].
  rewrite insert_sorted_Permutation. rewrite IH. reflexivity.
Qed.

Lemma rows_Permutation (store : gmap string Row) :
  IndexedDBManager.rows store ≡ₚ map snd (map_to_list store).
Proof. apply sort_by_Permutation. Qed.

Lemma length_rows (store : gmap string Row) :
  length (IndexedDBManager.rows store) = size store.
Proof.
  rewrite (Permutation_length (rows_Permutation store)).
  rewrite length_map. apply length_map_to_list.
Qed.

Lemma elem_of_rows (store : gmap string Row) (row : Row) :
  row ∈ IndexedDBManager.rows store <-> exists k, store !! k = Some row.
Proof.
  rewrite (rows_Permutation store). rewrite list_elem_of_fmap. split.
  - intros [[k r] [-> H]]. exists k. apply elem_of_map_to_list in H. exact H.
  - intros [k H]. exists (k, row). split; [reflexivity|].
    apply elem_of_map_to_list. exact H.
Qed.

(** ** Reading, deleting and scanning *)



(** X2: a second [get] of the same key, right after the first, returns the
    same value and finds nothing more to clean: the store after the second
    is the store after the first. *)
Theorem get_twice_is_stable (k : string) (w : World) :
  fst (IndexedDBManager.get k (snd (IndexedDBManager.get k w)))
  = fst (IndexedDBManager.get k w)
  /\ dataStore (snd (IndexedDBManager.get k (snd (IndexedDBManager.get k w))))
     = dataStore (snd (IndexedDBManager.get k w)).
Proof.
  rewrite (get_run k w).
  destruct (dataStore w !! k) as [row|] eqn:Hrow.
  - destruct (_ || _) eqn:Hstale; cbn [fst snd]; rewrite get_run;
      cbn [dataStore now state].
    + rewrite lookup_delete_eq. split; reflexivity.
    + rewrite Hrow, Hstale. split; reflexivity.
  - cbn [fst snd]. rewrite get_run. cbn [dataStore]. rewrite Hrow.
    split; reflexivity.
Qed.



(** X4: [getAll] returns every row of the store, each one once (as many rows
    as the store holds), and leaves the store as it was. *)
Theorem getAll_lists_every_row (w : World) :
  exists entries,
    fst (IndexedDBManager.getAll w) = Returned entries
    /\ length entries = size (dataStore w)
    /\ (forall row, row ∈ entries <-> exists k, dataStore w !! k = Some row)
    /\ dataStore (snd (IndexedDBManager.getAll w)) = dataStore w.
Proof.
  exists (IndexedDBManager.rows (dataStore w)).
  split; [reflexivity|]. split; [apply length_rows|].
  split; [apply elem_of_rows | reflexivity].
Qed.

(** ** Writing *)

Lemma Array_map_slimExample_present (examples slim : list JValue) :
  Array_map IndexedDBManager.slimExample examples = inr slim ->
  forallb present examples = true.
Proof.
  revert slim. induction examples as [|example rest IH]; cbn; intros slim H;
    [reflexivity|].
  destruct (IndexedDBManager.slimExample example) as [e|s] eqn:Hs; [discriminate H|].
  destruct (Array_map IndexedDBManager.slimExample rest) as [e|ss]; [discriminate H|].
  rewrite (IH ss eq_refl), andb_true_r.
  destruct example; try reflexivity; discriminate Hs.
Qed.

Lemma slimItem_inr (item slim : JValue) :
  IndexedDBManager.slimItem item = inr slim -> shapedItem item = true.
Proof.
  unfold IndexedDBManager.slimItem, shapedItem. intros H.
  destruct (prop "examples" item) as [| | | | |examples|] eqn:Hexamples;
    destruct item; try discriminate H; try reflexivity.
  all: destruct (Array_map IndexedDBManager.slimExample examples) as [e|kept] eqn:Hkept;
    [discriminate H|].
  all: cbn; exact (Array_map_slimExample_present examples kept Hkept).
Qed.

Lemma Array_map_slimItem_inr (items slim : list JValue) :
  Array_map IndexedDBManager.slimItem items = inr slim ->
  forallb shapedItem items = true.
Proof.
  revert slim. induction items as [|item rest IH]; cbn; intros slim H;
    [reflexivity|].
  destruct (IndexedDBManager.slimItem item) as [e|s] eqn:Hs; [discriminate H|].
  destruct (Array_map IndexedDBManager.slimItem rest) as [e|ss]; [discriminate H|].
  rewrite (slimItem_inr item s Hs), (IH ss eq_refl). reflexivity.
Qed.

(** Slimming goes through exactly for the shaped payloads. *)
Lemma slimResults_inr (p slim : JValue) :
  IndexedDBManager.slimResults (prop "data" p) = inr slim -> shaped p = true.
Proof.
  unfold IndexedDBManager.slimResults, shaped.
  destruct (prop "data" p) as [| | | | |items|]; try discriminate.
  destruct (Array_map IndexedDBManager.slimItem items) as [e|ss] eqn:Hss;
    [discriminate|].
  intros _. exact (Array_map_slimItem_inr items ss Hss).
Qed.

Lemma slimResults_shaped (p : JValue) :
  shaped p = true ->
  exists slim, IndexedDBManager.slimResults (prop "data" p) = inr (JArr slim).
Proof.
  unfold shaped, IndexedDBManager.slimResults.
  destruct (prop "data" p) as [| | | | |items|]; try discriminate.
  intros Hshape. destruct (Array_map_slimItem items Hshape) as (slim & -> & _).
  exists slim. reflexivity.
Qed.

(** What slimming throws is a [TypeError]. *)
Lemma Array_map_slimExample_inl (examples : list JValue) (e : Exn) :
  Array_map IndexedDBManager.slimExample examples = inl e ->
  exists message, e = ErrorObj "TypeError" message.
Proof.
  induction examples as [|example rest IH]; cbn; [discriminate|].
  destruct (IndexedDBManager.slimExample example) as [e'|s] eqn:Hs.
  - intros [= <-]. destruct example; try discriminate Hs;
      injection Hs as <-; eexists; reflexivity.
  - destruct (Array_map IndexedDBManager.slimExample rest) as [e'|ss];
      [|discriminate].
    intros [= <-]. apply IH. reflexivity.
Qed.

Lemma slimItem_inl (item : JValue) (e : Exn) :
  IndexedDBManager.slimItem item = inl e ->
  exists message, e = ErrorObj "TypeError" message.
Proof.
  unfold IndexedDBManager.slimItem. intros H.
  destruct (prop "examples" item) as [| | | | |examples|] eqn:Hexamples;
    destruct item; try discriminate H;
    try (injection H as <-; eexists; reflexivity).
  all: destruct (Array_map IndexedDBManager.slimExample examples) as [e'|kept] eqn:Hkept;
    [|discriminate H].
  all: injection H as <-; exact (Array_map_slimExample_inl examples e' Hkept).
Qed.

Lemma slimResults_inl (results : JValue) (e : Exn) :
  IndexedDBManager.slimResults results = inl e ->
  exists message, e = ErrorObj "TypeError" message.
Proof.
  unfold IndexedDBManager.slimResults.
  destruct results as [| | | | |items|];
    try (intros [= <-]; eexists; reflexivity).
  destruct (Array_map IndexedDBManager.slimItem items) as [e'|ss] eqn:Hss;
    [|discriminate].
  intros [= <-]. clear -Hss. revert e' Hss.
  induction items as [|item rest IH]; cbn; intros e' H; [discriminate H|].
  destruct (IndexedDBManager.slimItem item) as [e1|s] eqn:Hs.
  - injection H as <-. exact (slimItem_inl item e1 Hs).
  - destruct (Array_map IndexedDBManager.slimItem rest) as [e2|ss]; [|discriminate H].
    injection H as <-. apply IH. reflexivity.
Qed.

Lemma entriesToDelete_under_capacity (store : gmap string Row) :
  Z.of_nat (size store) < IndexedDBManager.MAX_ENTRIES ->
  IndexedDBManager.entriesToDelete (IndexedDBManager.rows store) = [].
Proof.
  intros Hsize. unfold IndexedDBManager.entriesToDelete.
  rewrite length_rows. rewrite bool_decide_eq_false_2 by lia. reflexivity.
Qed.

(** X5: while the store holds fewer than [MAX_ENTRIES] rows, [save] of a
    shaped payload that passes the validator evicts nothing: it writes the
    row of its key, stamped with the current time, over whatever row the key
    had, and leaves the row of every other key as it was. *)
Theorem save_under_capacity_writes_one_key (k : string) (p : JValue) (w : World) :
  reasonOf p = None ->
  shaped p = true ->
  Z.of_nat (size (dataStore w)) < IndexedDBManager.MAX_ENTRIES ->
  fst (IndexedDBManager.save k p w) = Returned tt
  /\ (exists slim,
        IndexedDBManager.slimResults (prop "data" p) = inr slim
        /\ dataStore (snd (IndexedDBManager.save k p w)) !! k
           = Some (mkRow k (JObj [("data", slim)]) (now w)))
  /\ (forall k', k' <> k ->
        dataStore (snd (IndexedDBManager.save k p w)) !! k' = dataStore w !! k')
  /\ trace (snd (IndexedDBManager.save k p w)) = trace w ++ [EvDbGetAll; EvDbPut k].
Proof.
  intros Hok Hshape Hsize.
  destruct (slimResults_shaped p Hshape) as [slim Hslim].
  rewrite (save_valid_run k p (JArr slim) w Hok Hslim).
  rewrite (entriesToDelete_under_capacity _ Hsize). cbn.
  split; [reflexivity|]. split; [|split; [|reflexivity]].
  - exists (JArr slim). split; [assumption | apply lookup_insert_eq].
  - intros k' Hne. apply lookup_insert_ne. congruence.
Qed.

Lemma save_under_capacity_writes_one_key_witness :
  fst (IndexedDBManager.save "inu" payload_hit world_cached) = Returned tt
  /\ dataStore (snd (IndexedDBManager.save "inu" payload_hit world_cached)) !! "neko"
     = Some row_neko.
Proof.
  destruct (save_under_capacity_writes_one_key "inu" payload_hit world_cached)
    as (Hrun & _ & Hother & _).
  - reflexivity.
  - reflexivity.
  - vm_compute. reflexivity.
  - split; [exact Hrun|]. rewrite (Hother "neko") by discriminate. reflexivity.
Defined.

(** X6: [save] of a payload that passes the validator but is not shaped (its
    results are not an array, or hold a [null] result or a [null] example)
    is rejected with the string "Error in saveToIndexedDB: TypeError: ...";
    nothing is written and the database is not even scanned. *)
Theorem save_unshaped_payload_is_rejected (k : string) (p : JValue) (w : World) :
  reasonOf p = None ->
  shaped p = false ->
  (exists message,
     fst (IndexedDBManager.save k p w)
     = Threw (Rejection ("Error in saveToIndexedDB: TypeError: " +:+ message)))
  /\ dataStore (snd (IndexedDBManager.save k p w)) = dataStore w
  /\ trace (snd (IndexedDBManager.save k p w)) = trace w.
Proof.
  intros Hok Hshape.
  destruct (IndexedDBManager.slimResults (prop "data" p)) as [e|slim] eqn:Hslim.
  - destruct (slimResults_inl _ e Hslim) as [message ->].
    rewrite (save_throws_run k p _ w Hok Hslim). cbn [fst snd dataStore trace].
    split; [exists message; reflexivity|]. split; reflexivity.
  - rewrite (slimResults_inr p slim Hslim) in Hshape. discriminate Hshape.
Qed.

Lemma save_unshaped_payload_is_rejected_witness :
  fst (IndexedDBManager.save "neko" payload_null_result world0)
  = Threw (Rejection
             "Error in saveToIndexedDB: TypeError: Cannot read properties of null (reading 'category_count')")
  /\ dataStore (snd (IndexedDBManager.save "neko" payload_null_result world0))
     = dataStore world0.
Proof.
  destruct (save_unshaped_payload_is_rejected "neko" payload_null_result world0)
    as (_ & Hstore & _).
  - reflexivity.
  - reflexivity.
  - split; [vm_compute; reflexivity | exact Hstore].
Defined.

(** * Further properties of the lookups *)

Section MoreRounds.

Variable remote : nat -> string -> Exchange.
Variables searchVocab url : string.
Variable maxRetries : nat.

(** A run that finds a fresh, valid row with a non-empty array of results:
    the examples come from the cache. *)
Lemma fetchData_hit (fuel attempt : nat) (w : World) (row : Row) :
  dataStore w !! searchVocab = Some row ->
  now w - timestamp row < IndexedDBManager.EXPIRATION_TIME ->
  reasonOf (data row) = None ->
  cacheHit (data row) = true ->
  fetchData remote searchVocab url maxRetries (S fuel) attempt w =
  (Returned tt,
   mkWorld (mkState (prop "examples" (first (prop "data" (data row)))) true
                    (vocab (state w)) false)
           (dataStore w) (prefs w) (now w) (requests w)
           (trace w ++ [EvDbOpen; EvDbGet searchVocab])).
Proof.
  intros Hrow Hfresh Hvalid Hhit.
  cbn [fetchData].
  unfold bind at 1. unfold try_catch at 1. unfold bind at 1.
  unfold IndexedDBManager.open, emit at 1. cbv beta iota.
  unfold bind at 1. rewrite get_run. cbn [dataStore state prefs now requests trace].
  rewrite Hrow, Hvalid. rewrite bool_decide_eq_false_2 by lia.
  rewrite bool_decide_eq_false_2 by (intros [? ?]; discriminate).
  cbn [orb]. cbv beta iota. rewrite Hhit.
  unfold bind, modify_state, ret. cbn. rewrite <- app_assoc. reflexivity.
Qed.

(** A run that misses the cache and receives a payload that the validator
    accepts: the examples are taken from it, and the run ends as the [save]
    of the payload does. *)
Lemma fetchData_accepted (fuel attempt : nat) (w : World)
    (status : Z) (p : JValue) :
  dataStore w !! searchVocab = None ->
  answer (remote (requests w) url) = HttpResponse status (Parsed p) ->
  ok status = true ->
  reasonOf p = None ->
  fetchData remote searchVocab url maxRetries (S fuel) attempt w =
  match IndexedDBManager.save searchVocab p
          (mkWorld (mkState (prop "examples" (first (prop "data" p))) true
                            (vocab (state w)) false)
                   (dataStore w) (prefs w)
                   (now w + elapsed (remote (requests w) url))
                   (S (requests w))
                   (trace w ++ [EvDbOpen; EvDbGet searchVocab; EvFetch url]))
  with
  | (Returned _, w') => (Returned tt, w')
  | (Threw e, w') =>
      (Threw (Error ("Fetch error: " +:+ message_of e)),
       mkWorld (set_error true (state w')) (dataStore w') (prefs w') (now w')
               (requests w') (trace w' ++ [EvEmbed]))
  | (OutOfFuel, w') => (OutOfFuel, w')
  end.
Proof.
  intros Hmiss Hanswer Hok Hvalid.
  cbn [fetchData].
  unfold bind at 1. unfold try_catch at 1. unfold bind at 1.
  unfold IndexedDBManager.open, emit at 1. cbv beta iota.
  unfold bind at 1. rewrite get_run. cbn [dataStore state prefs now requests trace].
  rewrite Hmiss. cbv beta iota.
  cbn [cacheHit truthy andb].
  unfold try_catch at 1. unfold bind at 1.
  rewrite fetch_run. cbn [dataStore state prefs now requests trace].
  rewrite Hanswer. cbv beta iota zeta. cbn [fst snd]. rewrite Hok. cbn [negb].
  unfold bind at 1. unfold json, ret at 1. cbv beta iota.
  unfold bind at 1. rewrite validate_run, Hvalid. cbv beta iota.
  cbn [dataStore state prefs now requests trace].
  unfold bind at 1. unfold modify_state at 1. cbv beta iota.
  unfold bind at 1. unfold modify_state at 1. cbv beta iota.
  cbn [dataStore state prefs now requests trace set_examples set_apiDataFetched
       set_error examples apiDataFetched vocab error].
  rewrite <- !app_assoc. cbn [app].
  unfold bind at 1.
  destruct (IndexedDBManager.save searchVocab p _) as [[[]|e|] w'].
  - reflexivity.
  - unfold throw, bind, modify_state, embedImageAndPlayAudio, emit. cbn.
    reflexivity.
  - reflexivity.
Qed.

End MoreRounds.

Lemma slimResults_array (results slim : JValue) :
  IndexedDBManager.slimResults results = inr slim -> exists items, slim = JArr items.
Proof.
  unfold IndexedDBManager.slimResults.
  destruct results as [| | | | |items|]; try discriminate.
  destruct (Array_map IndexedDBManager.slimItem items) as [e|ss]; [discriminate|].
  intros [= <-]. eexists. reflexivity.
Qed.

(** A slimmed payload that passes the validator is a cache hit. *)
Lemma cacheHit_slimmed (results slim : JValue) :
  IndexedDBManager.slimResults results = inr slim ->
  reasonOf (JObj [("data", slim)]) = None ->
  cacheHit (JObj [("data", slim)]) = true.
Proof.
  intros Hslim Hvalid. destruct (slimResults_array _ _ Hslim) as [items ->].
  destruct (reasonOf_None _ Hvalid) as (_ & _ & Hfirst & _).
  destruct items as [|item rest]; [discriminate Hfirst|]. reflexivity.
Qed.

Section MoreLookup.

Variable encodeURIComponent : string -> string.
Variable remote : nat -> string -> Exchange.

(** X7: when the term is not blacklisted and the store holds, under the
    search key, a row that is not expired and whose payload passes the
    validator with a non-empty array of results, the lookup makes no request:
    it opens the database, reads the row, takes [state.examples] from the
    first cached result, sets [state.apiDataFetched], and returns. *)
Theorem lookup_is_served_from_cache (term : string) (exactSearch : bool)
    (w : World) (row : Row) :
  let key := searchVocabOf term exactSearch in
  let run := getImmersionKitData encodeURIComponent remote term exactSearch w in
  isBlacklisted (prefs w !! vocab (state w)) = false ->
  dataStore w !! key = Some row ->
  now w - timestamp row < IndexedDBManager.EXPIRATION_TIME ->
  reasonOf (data row) = None ->
  cacheHit (data row) = true ->
  fst run = Returned tt
  /\ trace (snd run)
     = trace w ++ [EvPrefsGet (vocab (state w)); EvDbOpen; EvDbGet key]
  /\ requests (snd run) = requests w
  /\ examples (state (snd run)) = prop "examples" (first (prop "data" (data row)))
  /\ apiDataFetched (state (snd run)) = true
  /\ error (state (snd run)) = false
  /\ dataStore (snd run) = dataStore w.
Proof.
  intros key run Hlisted Hrow Hfresh Hvalid Hhit. subst run.
  rewrite getImmersionKitData_run, Hlisted. cbv zeta. fold key.
  rewrite (fetchData_hit remote key _ 5 4 0 _ row) by assumption.
  cbn. rewrite <- app_assoc. repeat split.
Qed.

(** X8: when, after [n] rejected payloads ([n] below five, nothing cached,
    term not blacklisted), the remote API answers with a payload that passes
    the validator and is shaped, the lookup returns without an error after
    [n + 1] requests and [n] waits; [state.examples] holds the examples of
    the first result as received, [state.apiDataFetched] is set, and the
    store holds the slimmed payload under the search key, stamped with the
    time of the write. *)
Theorem lookup_succeeds_after_rejections (term : string) (exactSearch : bool)
    (w : World) (n : nat) (status : Z) (p : JValue) :
  let key := searchVocabOf term exactSearch in
  let url := urlOf encodeURIComponent key in
  let run := getImmersionKitData encodeURIComponent remote term exactSearch w in
  isBlacklisted (prefs w !! vocab (state w)) = false ->
  dataStore w !! key = None ->
  (n < 5)%nat ->
  (forall i, (i < n)%nat -> rejectedAt remote url w i) ->
  answer (remote (requests w + n)%nat url) = HttpResponse status (Parsed p) ->
  ok status = true ->
  reasonOf p = None ->
  shaped p = true ->
  fst run = Returned tt
  /\ requests (snd run) = (requests w + n + 1)%nat
  /\ List.filter onNetwork (drop (length (trace w)) (trace (snd run)))
     = concat (replicate n [EvFetch url; EvWait 2000]) ++ [EvFetch url]
  /\ examples (state (snd run)) = prop "examples" (first (prop "data" p))
  /\ apiDataFetched (state (snd run)) = true
  /\ error (state (snd run)) = false
  /\ exists slim,
       IndexedDBManager.slimResults (prop "data" p) = inr slim
       /\ dataStore (snd run) !! key
          = Some (mkRow key (JObj [("data", slim)]) (now (snd run))).
Proof.
  intros key url run Hlisted Hmiss Hn Hrejected Hanswer Hok Hvalid Hshape.
  subst run.
  rewrite getImmersionKitData_run, Hlisted. cbv zeta. fold key. fold url.
  match goal with |- context [fetchData _ _ _ _ _ _ ?w1] => set (w1' := w1) end.
  destruct (fetchData_rejections remote key url 5 n (5 - n) 0 w1') as
    (w' & Hrun & Hstore & _ & Hrequests & Htrace).
  { exact Hmiss. }
  { exact Hrejected. }
  { lia. }
  replace (n + (5 - n))%nat with 5%nat in Hrun by lia. rewrite Hrun.
  assert (Hn' : requests w' = (requests w + n)%nat) by (rewrite Hrequests; reflexivity).
  destruct (5 - n)%nat as [|fuel] eqn:Hfuel; [lia|].
  rewrite (fetchData_accepted remote key url 5 fuel (0 + n) w' status p)
    by (rewrite ?Hstore, ?Hn'; assumption).
  destruct (slimResults_shaped p Hshape) as [slim Hslim].
  rewrite (save_valid_run key p (JArr slim) _ Hvalid Hslim).
  cbn [fst snd trace requests state dataStore now examples apiDataFetched error
       set_error].
  split; [reflexivity|]. split; [lia|]. split; [|split; [reflexivity|]].
  - rewrite Htrace. subst w1'. cbn [trace].
    rewrite <- !app_assoc. rewrite drop_app_length.
    cbn [app List.filter onNetwork]. rewrite !List.filter_app.
    cbn [List.filter onNetwork].
    assert (Hevict : forall l : list Row,
              List.filter onNetwork (map (fun entry => EvDbDelete (keyword entry)) l)
              = []).
    { induction l as [|? ? IHl]; [reflexivity | exact IHl]. }
    rewrite List.filter_app, Hevict. cbn [app List.filter onNetwork]. f_equal.
    clear. induction n as [|n IH]; [reflexivity|].
    cbn [replicate concat retryRound app List.filter onNetwork].
    rewrite IH. reflexivity.
  - split; [reflexivity|]. split; [reflexivity|].
    exists (JArr slim). split; [assumption | apply lookup_insert_eq].
Qed.

End MoreLookup.

Lemma lookup_is_served_from_cache_witness :
  fst (getImmersionKitData encode_plain remote_down "neko" false world_cached)
  = Returned tt
  /\ requests (snd (getImmersionKitData encode_plain remote_down "neko" false
                      world_cached)) = 0%nat
  /\ examples (state (snd (getImmersionKitData encode_plain remote_down "neko" false
                             world_cached)))
     = JArr [projection (JObj [("sentence", JStr "x")])].
Proof.
  destruct (lookup_is_served_from_cache encode_plain remote_down "neko" false
              world_cached row_neko)
    as (Hrun & _ & Hrequests & Hexamples & _).
  - reflexivity.
  - reflexivity.
  - reflexivity.
  - reflexivity.
  - reflexivity.
  - repeat split; assumption.
Defined.


Lemma lookup_succeeds_after_rejections_witness :
  fst (getImmersionKitData encode_plain remote_slow "neko" false world0)
  = Returned tt
  /\ requests (snd (getImmersionKitData encode_plain remote_slow "neko" false world0))
     = 3%nat
  /\ examples (state (snd (getImmersionKitData encode_plain remote_slow "neko" false
                             world0)))
     = JArr [JObj [("sentence", JStr "x")]].
Proof.
  destruct (lookup_succeeds_after_rejections encode_plain remote_slow "neko" false
              world0 2 200 payload_hit)
    as (Hrun & Hrequests & _ & Hexamples & _).
  - reflexivity.
  - reflexivity.
  - lia.
  - intros i Hi. exists 200, payload_blank, "Blank API".
    destruct i as [|[|i]]; [repeat split.. | lia].
  - reflexivity.
  - reflexivity.
  - reflexivity.
  - reflexivity.
  - repeat split; assumption.
Defined.

Section CachedLookup.

Variable encodeURIComponent : string -> string.
Variable remote : nat -> string -> Exchange.

(** X9: a lookup that misses the cache and receives at once a shaped payload
    that passes the validator, with an array of examples in its first
    result, fills the cache for the next one: the same lookup, made right
    after it, returns without a further request, and [state.examples] then
    holds the slimmed projections of those examples. *)
Theorem second_lookup_is_served_from_cache (term : string) (exactSearch : bool)
    (w : World) (status : Z) (p : JValue) (received : list JValue) :
  let key := searchVocabOf term exactSearch in
  let url := urlOf encodeURIComponent key in
  let lookup := getImmersionKitData encodeURIComponent remote term exactSearch in
  isBlacklisted (prefs w !! vocab (state w)) = false ->
  dataStore w !! key = None ->
  answer (remote (requests w) url) = HttpResponse status (Parsed p) ->
  ok status = true ->
  reasonOf p = None ->
  shaped p = true ->
  prop "examples" (first (prop "data" p)) = JArr received ->
  fst (lookup w) = Returned tt
  /\ examples (state (snd (lookup w))) = JArr received
  /\ fst (lookup (snd (lookup w))) = Returned tt
  /\ requests (snd (lookup (snd (lookup w)))) = S (requests w)
  /\ examples (state (snd (lookup (snd (lookup w)))))
     = JArr (map projection received).
Proof.
  intros key url lookup Hlisted Hmiss Hanswer Hok Hvalid Hshape Hreceived.
  subst lookup.
  destruct (slimResults_valid p received Hvalid Hshape Hreceived)
    as (slim & Hslim & Hslimvalid & Hproj & _).
  assert (Hfirst : exists w1,
            getImmersionKitData encodeURIComponent remote term exactSearch w
            = (Returned tt, w1)
            /\ examples (state w1) = JArr received
            /\ vocab (state w1) = vocab (state w)
            /\ prefs w1 = prefs w
            /\ requests w1 = S (requests w)
            /\ dataStore w1 !! key = Some (mkRow key (JObj [("data", slim)]) (now w1))).
  { rewrite getImmersionKitData_run, Hlisted. cbv zeta. fold key. fold url.
    rewrite (fetchData_accepted remote key url 5 4 0 _ status p)
      by assumption.
    rewrite (save_valid_run key p slim _ Hvalid Hslim).
    eexists. split; [reflexivity|]. cbn.
    repeat split; [assumption | apply lookup_insert_eq]. }
  destruct Hfirst as (w1 & Hrun1 & Hexamples1 & Hvocab1 & Hprefs1 & Hrequests1 & Hrow1).
  rewrite Hrun1. cbn [fst snd].
  split; [reflexivity|]. split; [assumption|].
  rewrite getImmersionKitData_run, Hvocab1, Hprefs1, Hlisted. cbv zeta. fold key.
  rewrite (fetchData_hit remote key _ 5 4 0 _
             (mkRow key (JObj [("data", slim)]) (now w1))).
  - cbn. rewrite Hproj. repeat split. assumption.
  - exact Hrow1.
  - cbn. unfold IndexedDBManager.EXPIRATION_TIME. lia.
  - exact Hslimvalid.
  - exact (cacheHit_slimmed _ _ Hslim Hslimvalid).
Qed.


End CachedLookup.

Lemma second_lookup_is_served_from_cache_witness :
  requests (snd (getImmersionKitData encode_plain remote_hit "neko" false
                   (snd (getImmersionKitData encode_plain remote_hit "neko" false
                           world0)))) = 1%nat
  /\ examples (state (snd (getImmersionKitData encode_plain remote_hit "neko" false
                      (snd (getImmersionKitData encode_plain remote_hit "neko" false
                              world0)))))
     = JArr [projection (JObj [("sentence", JStr "x")])].
Proof.
  destruct (second_lookup_is_served_from_cache encode_plain remote_hit "neko" false
              world0 200 payload_hit [JObj [("sentence", JStr "x")]])
    as (_ & _ & _ & Hrequests & Hexamples).
  - reflexivity.
  - reflexivity.
  - reflexivity.
  - reflexivity.
  - reflexivity.
  - reflexivity.
  - reflexivity.
  - split; assumption.
Defined.


(** ** How many requests a lookup makes *)


















(** ** What a lookup leaves alone *)

Lemma frames_bind {A B} (m : M A) (k : A -> M B) :
  frames m -> (forall a, frames (k a)) -> frames (bind m k).
Proof.
  intros Hm Hk w. unfold bind. destruct (Hm w) as [Hp Hv].
  destruct (m w) as [[a|e|] w']; cbn in *; [|split; assumption..].
  destruct (Hk a w') as [Hp' Hv']. split; congruence.
Qed.

Lemma frames_try_catch {A} (m : M A) (handler : Exn -> M A) :
  frames m -> (forall e, frames (handler e)) -> frames (try_catch m handler).
Proof.
  intros Hm Hh w. unfold try_catch. destruct (Hm w) as [Hp Hv].
  destruct (m w) as [[a|e|] w']; cbn in *; [split; assumption| |split; assumption].
  destruct (Hh e w') as [Hp' Hv']. split; congruence.
Qed.

Lemma frames_ret {A} (a : A) : frames (ret a).
Proof. intros w. split; reflexivity. Qed.

Lemma frames_throw {A} (e : Exn) : frames (@throw A e).
Proof. intros w. split; reflexivity. Qed.

Lemma frames_emit (e : Event) : frames (emit e).
Proof. intros w. split; reflexivity. Qed.

Lemma frames_read {A} (f : World -> A) : frames (read f).
Proof. intros w. split; reflexivity. Qed.

Lemma frames_modify_store (f : gmap string Row -> gmap string Row) :
  frames (modify_store f).
Proof. intros w. split; reflexivity. Qed.

Lemma frames_advance (ms : Z) : frames (advance ms).
Proof. intros w. split; reflexivity. Qed.

Lemma frames_answered (x : Exchange) : frames (answered x).
Proof. intros w. split; reflexivity. Qed.

Lemma frames_set_examples (v : JValue) : frames (modify_state (set_examples v)).
Proof. intros w. split; reflexivity. Qed.

Lemma frames_set_apiDataFetched (b : bool) :
  frames (modify_state (set_apiDataFetched b)).
Proof. intros w. split; reflexivity. Qed.

Lemma frames_set_error (b : bool) : frames (modify_state (set_error b)).
Proof. intros w. split; reflexivity. Qed.

Lemma frames_validate (p : JValue) : frames (validate p).
Proof. intros w. rewrite validate_run. split; reflexivity. Qed.

Lemma frames_lift {A} (r : Sync A) : frames (lift r).
Proof. destruct r; [apply frames_throw | apply frames_ret]. Qed.

Create HintDb frames.
#[local] Hint Resolve frames_ret frames_throw frames_emit frames_read
  frames_modify_store frames_advance frames_answered frames_set_examples
  frames_set_apiDataFetched frames_set_error frames_validate frames_lift
  : frames.

Ltac frame :=
  repeat first
    [ solve [auto with frames]
    | match goal with
      | |- frames (match ?x with _ => _ end) => destruct x
      end
    | apply frames_bind; [|intros ?]
    | apply frames_try_catch; [|intros ?] ].

Lemma frames_deleteAll (entries : list Row) :
  frames (IndexedDBManager.deleteAll entries).
Proof. induction entries as [|entry rest IH]; cbn [IndexedDBManager.deleteAll]; frame. Qed.

Lemma frames_get (k : string) : frames (IndexedDBManager.get k).
Proof.
  unfold IndexedDBManager.get, IndexedDBManager.deleteEntry, Date_now. frame.
Qed.

Lemma frames_save (k : string) (p : JValue) : frames (IndexedDBManager.save k p).
Proof.
  pose proof frames_deleteAll.
  unfold IndexedDBManager.save, IndexedDBManager.getAll, Date_now. frame.
Qed.

Lemma frames_fetchData (remote : nat -> string -> Exchange)
    (searchVocab url : string) (maxRetries fuel attempt : nat) :
  frames (fetchData remote searchVocab url maxRetries fuel attempt).
Proof.
  revert attempt. induction fuel as [|fuel IH]; intros attempt.
  - intros w. split; reflexivity.
  - pose proof frames_get. pose proof frames_save.
    cbn [fetchData]. apply frames_bind.
    + unfold IndexedDBManager.open, embedImageAndPlayAudio, fetch, json, sleep.
      frame.
    + intros [|attempt']; [auto with frames | apply IH].
Qed.

(** X12: a call of [getImmersionKitData] only reads the preferences: it
    never writes chrome.storage and never changes the current word
    [state.vocab], whatever happens in the store and on the network. *)
Theorem lookup_never_writes_preferences
    (encodeURIComponent : string -> string) (remote : nat -> string -> Exchange)
    (term : string) (exactSearch : bool) (w : World) :
  prefs (snd (getImmersionKitData encodeURIComponent remote term exactSearch w))
  = prefs w
  /\ vocab (state (snd (getImmersionKitData encodeURIComponent remote term
                          exactSearch w)))
     = vocab (state w).
Proof.
  pose proof frames_fetchData.
  assert (Hframes : frames (getImmersionKitData encodeURIComponent remote term
                              exactSearch)).
  { unfold getImmersionKitData, state_vocab, chromeStorage_get. frame. }
  exact (Hframes w).
Qed.

(** ** What findExampleBySentence finds *)

Lemma Array_filter_sentenceIs (sentence : string) (examples : list JValue) :
  forallb present examples = true ->
  Array_filter (sentenceIs sentence) examples
  = inr (List.filter (hasSentence sentence) examples).
Proof.
  induction examples as [|example rest IH]; cbn; [reflexivity|].
  intros [Hexample Hrest]%andb_true_iff. rewrite (IH Hrest).
  unfold sentenceIs, hasSentence.
  destruct example; try discriminate Hexample;
    try reflexivity.
  destruct (prop "sentence" (JObj fields)); reflexivity.
Qed.

Lemma matchesOf_scannable (sentence : string) (found : list JValue) (item : JValue) :
  scannable item = true ->
  matchesOf sentence found item = inr (found ++ matchesIn sentence item).
Proof.
  unfold scannable, matchesOf, matchesIn.
  intros [Hitem Hexamples]%andb_true_iff.
  destruct (prop "examples" item) as [| |b|n|s|examples|fields] eqn:E;
    destruct item; try discriminate Hitem; cbn in Hexamples |- *;
    try (rewrite app_nil_r; reflexivity);
    try (apply negb_true_iff in Hexamples; cbn in Hexamples;
         rewrite ?Hexamples, ?app_nil_r; reflexivity);
    try discriminate Hexamples.
  all: rewrite (Array_filter_sentenceIs sentence examples Hexamples); reflexivity.
Qed.

Lemma forOf_scannable (sentence : string) (items found : list JValue) :
  forallb scannable items = true ->
  forOf sentence found items
  = inr (found ++ concat (map (matchesIn sentence) items)).
Proof.
  revert found. induction items as [|item rest IH]; intros found; cbn.
  - intros _. rewrite app_nil_r. reflexivity.
  - intros [Hitem Hrest]%andb_true_iff.
    rewrite (matchesOf_scannable sentence found item Hitem).
    rewrite (IH _ Hrest), <- app_assoc. reflexivity.
Qed.

Lemma hasSentence_sentence (sentence : string) (example : JValue) :
  hasSentence sentence example = true -> prop "sentence" example = JStr sentence.
Proof.
  unfold hasSentence. destruct (prop "sentence" example); try discriminate.
  intros ->%String.eqb_eq. reflexivity.
Qed.

Lemma elem_of_matchesIn (sentence : string) (items : list JValue) (example : JValue) :
  example ∈ concat (map (matchesIn sentence) items) ->
  prop "sentence" example = JStr sentence
  /\ exists item examples,
       item ∈ items /\ prop "examples" item = JArr examples /\ example ∈ examples.
Proof.
  intros Hin%list_elem_of_In.
  apply List.in_concat in Hin as (found & Hfound & Hin).
  apply List.in_map_iff in Hfound as (item & <- & Hitem).
  unfold matchesIn in Hin.
  destruct (prop "examples" item) as [| | | | |examples|] eqn:E;
    try contradiction.
  apply List.filter_In in Hin as [Hin Hmatch].
  split; [exact (hasSentence_sentence _ _ Hmatch)|].
  exists item, examples.
  split; [apply list_elem_of_In; exact Hitem|].
  split; [exact E | apply list_elem_of_In; exact Hin].
Qed.

Section Found.

Variable encodeURIComponent : string -> string.
Variable remote : nat -> string -> Exchange.

(** X13: for a response with a 2xx status whose results are an array of
    scannable results, [findExampleBySentence] returns the example number
    [occurrenceIndex] (from 0) among the examples that have exactly the
    sentence looked for, counted through all the results in order; the
    example it returns carries that sentence and is one of the examples of
    the response. *)
Theorem findExampleBySentence_finds_the_occurrence (sentence : string)
    (occurrenceIndex : Z) (w : World) (status : Z) (jsonData : JValue)
    (items : list JValue) (example : JValue) :
  let searchUrl := urlOf encodeURIComponent (quoted sentence) in
  answer (remote (requests w) searchUrl) = HttpResponse status (Parsed jsonData) ->
  ok status = true ->
  prop "data" jsonData = JArr items ->
  forallb scannable items = true ->
  0 <= occurrenceIndex ->
  concat (map (matchesIn sentence) items) !! Z.to_nat occurrenceIndex = Some example ->
  fst (findExampleBySentence encodeURIComponent remote sentence occurrenceIndex w)
  = Returned example
  /\ prop "sentence" example = JStr sentence
  /\ exists item examples,
       item ∈ items /\ prop "examples" item = JArr examples /\ example ∈ examples.
Proof.
  intros searchUrl Hanswer Hok Hdata Hitems Hindex Hfound.
  rewrite findExampleBySentence_run. fold searchUrl. cbn [fst].
  rewrite Hanswer, Hok, Hdata. cbn [negb truthy allMatches].
  rewrite (forOf_scannable sentence items [] Hitems). cbn [app].
  pose proof (lookup_lt_Some _ _ _ Hfound) as Hlt.
  rewrite bool_decide_eq_true_2 by lia.
  unfold at_index. rewrite bool_decide_eq_true_2 by lia. rewrite Hfound.
  split; [reflexivity|].
  apply (elem_of_matchesIn sentence items example).
  apply list_elem_of_lookup. eauto.
Qed.

(** X14: [findExampleBySentence] makes exactly one request and touches
    neither the store, nor [state], nor the preferences, whatever the remote
    API answers. *)
Theorem findExampleBySentence_only_fetches (sentence : string)
    (occurrenceIndex : Z) (w : World) :
  let run := findExampleBySentence encodeURIComponent remote sentence
               occurrenceIndex w in
  requests (snd run) = S (requests w)
  /\ length (List.filter isFetch (drop (length (trace w)) (trace (snd run)))) = 1%nat
  /\ List.filter onStore (drop (length (trace w)) (trace (snd run))) = []
  /\ dataStore (snd run) = dataStore w
  /\ state (snd run) = state w
  /\ prefs (snd run) = prefs w.
Proof.
  intros run. subst run. rewrite findExampleBySentence_run. cbn [snd trace requests
    dataStore state prefs]. rewrite drop_app_length. repeat split.
Qed.

End Found.

Lemma findExampleBySentence_finds_the_occurrence_witness :
  fst (findExampleBySentence encode_plain remote_two_results "x" 1 world0)
  = Returned (JObj [("sentence", JStr "x"); ("deck_name", JStr "C")]).
Proof.
  destruct (findExampleBySentence_finds_the_occurrence encode_plain remote_two_results
              "x" 1 world0 200 payload_two_results
              [JObj [("category_count", JObj [("anime", JNum 2)]);
                     ("examples",
                      JArr [JObj [("sentence", JStr "y"); ("deck_name", JStr "A")];
                            JObj [("sentence", JStr "x"); ("deck_name", JStr "B")]])];
               JObj [("examples",
                      JArr [JObj [("sentence", JStr "x"); ("deck_name", JStr "C")]])]]
              (JObj [("sentence", JStr "x"); ("deck_name", JStr "C")]))
    as (Hrun & _).
  - reflexivity.
  - reflexivity.
  - reflexivity.
  - reflexivity.
  - lia.
  - reflexivity.
  - exact Hrun.
Defined.

(** * The starred sentence *)

(** ** Splitting at commas, reading integers *)

Lemma append_cons (c : ascii) (s t : string) : String c s +:+ t = String c (s +:+ t).
Proof. reflexivity. Qed.

Lemma append_empty (t : string) : "" +:+ t = t.
Proof. reflexivity. Qed.

Lemma split_comma_nonempty (s : string) : exists piece more, split_comma s = piece :: more.
Proof.
  induction s as [|c rest (piece & more & IH)]; cbn.
  - eexists _, _. reflexivity.
  - destruct (Ascii.eqb c ","%char); [eexists _, _; reflexivity|].
    rewrite IH. eexists _, _. reflexivity.
Qed.

(** Splitting a string with a comma in the middle. *)
Lemma split_comma_app (a b : string) :
  split_comma (a +:+ "," +:+ b) = split_comma a ++ split_comma b.
Proof.
  induction a as [|c rest IH].
  - reflexivity.
  - rewrite append_cons. cbn [split_comma].
    destruct (Ascii.eqb c ","%char).
    + rewrite IH. reflexivity.
    + rewrite IH. destruct (split_comma_nonempty rest) as (piece & more & ->).
      reflexivity.
Qed.

Lemma split_comma_commaFree (a : string) : commaFree a = true -> split_comma a = [a].
Proof.
  induction a as [|c rest IH]; cbn; [reflexivity|].
  intros [Hc Hrest]%andb_true_iff. apply negb_true_iff in Hc.
  rewrite Hc, (IH Hrest). reflexivity.
Qed.

Lemma append_comma_not_empty (a b : string) : String.eqb (a +:+ "," +:+ b) "" = false.
Proof. destruct a; reflexivity. Qed.

Lemma is_nat_pretty_N_char (m : N) :
  (m < 10)%N -> Ascii.is_nat (pretty_N_char m) = Some (N.to_nat m).
Proof.
  intros Hm.
  assert (m = 0 \/ m = 1 \/ m = 2 \/ m = 3 \/ m = 4 \/ m = 5 \/ m = 6 \/ m = 7
          \/ m = 8 \/ m = 9)%N as H by lia.
  repeat (destruct H as [->|H]; [reflexivity|]). subst m. reflexivity.
Qed.

(** A decimal digit is neither white space, nor a sign, nor a comma. *)
Lemma digit_char (c : ascii) (d : nat) :
  Ascii.is_nat c = Some d ->
  Ascii.is_space c = false
  /\ Ascii.eqb c ","%char = false
  /\ c <> "-"%char /\ c <> "+"%char.
Proof.
  destruct c as [[] [] [] [] [] [] [] []]; cbn; intros H; try discriminate H;
    repeat split; discriminate.
Qed.

(** Reading back the digits that [pretty] writes in front of [s]. *)
Lemma digits_pretty_N_go (x : N) :
  forall s, exists k,
    ((0 < x)%N -> (0 < k)%nat)
    /\ forall acc count,
         digits acc count (pretty_N_go x s)
         = digits (acc * 10 ^ Z.of_nat k + Z.of_N x) (count + k) s.
Proof.
  induction (N.lt_wf_0 x) as [x _ IH]. intros s.
  assert (x = 0 \/ 0 < x)%N as [->|Hx] by lia.
  - exists 0%nat. split; [lia|]. intros acc count.
    rewrite pretty_N_go_0, Nat.add_0_r. f_equal. cbn. lia.
  - rewrite pretty_N_go_step by exact Hx.
    destruct (IH (x `div` 10)%N ltac:(apply N.div_lt; lia)
                (String (pretty_N_char (x `mod` 10)) s)) as (k & _ & Hk).
    exists (S k). split; [lia|]. intros acc count. rewrite Hk.
    cbn [digits].
    rewrite (is_nat_pretty_N_char (x `mod` 10)) by (apply N.mod_lt; lia).
    f_equal; [|lia].
    rewrite Nat2Z.inj_succ, Z.pow_succ_r by lia.
    pose proof (N.div_mod x 10 ltac:(lia)) as Hdiv.
    rewrite N_nat_Z. lia.
Qed.

Lemma head_pretty_N_go (x : N) :
  forall s, (0 < x)%N ->
    exists c rest d, pretty_N_go x s = String c rest /\ Ascii.is_nat c = Some d.
Proof.
  induction (N.lt_wf_0 x) as [x _ IH]. intros s Hx.
  rewrite pretty_N_go_step by exact Hx.
  destruct (N.eq_0_gt_0_cases (x `div` 10)) as [->|Hdiv].
  - rewrite pretty_N_go_0. eexists _, _, _. split; [reflexivity|].
    apply is_nat_pretty_N_char, N.mod_lt. lia.
  - apply IH; [apply N.div_lt; lia | exact Hdiv].
Qed.

Lemma commaFree_pretty_N_go (x : N) :
  forall s, commaFree s = true -> commaFree (pretty_N_go x s) = true.
Proof.
  induction (N.lt_wf_0 x) as [x _ IH]. intros s Hs.
  assert (x = 0 \/ 0 < x)%N as [->|Hx] by lia.
  - rewrite pretty_N_go_0. exact Hs.
  - rewrite pretty_N_go_step by exact Hx.
    apply IH; [apply N.div_lt; lia|]. cbn [commaFree]. rewrite Hs, andb_true_r.
    pose proof (is_nat_pretty_N_char (x `mod` 10) ltac:(apply N.mod_lt; lia)) as H.
    destruct (digit_char _ _ H) as (_ & -> & _). reflexivity.
Qed.

Lemma digits_pretty_pos (p : positive) :
  exists c rest d k,
    pretty (Npos p) = String c rest
    /\ Ascii.is_nat c = Some d
    /\ digits 0 0 (String c rest) = (Zpos p, S k)
    /\ commaFree (String c rest) = true.
Proof.
  unfold pretty, pretty_N. rewrite decide_False by discriminate.
  destruct (head_pretty_N_go (Npos p) "" ltac:(lia)) as (c & rest & d & Hhead & Hd).
  destruct (digits_pretty_N_go (Npos p) "") as (k & Hk & Hdigits).
  specialize (Hk ltac:(lia)). specialize (Hdigits 0 0%nat).
  pose proof (commaFree_pretty_N_go (Npos p) "" eq_refl) as Hfree.
  rewrite Hhead in *. destruct k as [|k]; [lia|].
  exists c, rest, d, k. repeat split; assumption.
Qed.

(** A string that starts with a digit, alone or after a minus sign. *)
Lemma parseInt10_digits (c : ascii) (rest : string) (d : nat) (n : Z) (k : nat) :
  Ascii.is_nat c = Some d ->
  digits 0 0 (String c rest) = (n, S k) ->
  parseInt10 (String c rest) = Some n
  /\ parseInt10 (String "-"%char (String c rest)) = Some (- n).
Proof.
  intros Hd Hdigits. unfold parseInt10.
  destruct c as [[] [] [] [] [] [] [] []]; try discriminate Hd;
    cbn [skip_spaces Ascii.is_space]; rewrite Hdigits;
    split; f_equal; lia.
Qed.

(** [parseInt] reads back the integer that a template literal prints. *)
Lemma parseInt10_pretty (z : Z) :
  parseInt10 (pretty z) = Some z /\ commaFree (pretty z) = true.
Proof.
  destruct z as [|p|p].
  - split; reflexivity.
  - destruct (digits_pretty_pos p) as (c & rest & d & k & Hp & Hd & Hdigits & Hfree).
    change (pretty (Z.pos p)) with (pretty (N.pos p)). rewrite Hp.
    split; [|exact Hfree]. exact (proj1 (parseInt10_digits c rest d _ k Hd Hdigits)).
  - destruct (digits_pretty_pos p) as (c & rest & d & k & Hp & Hd & Hdigits & Hfree).
    change (pretty (Z.neg p)) with ("-" +:+ pretty (N.pos p)). rewrite Hp.
    rewrite append_cons, append_empty.
    split; [|exact Hfree].
    exact (proj2 (parseInt10_digits c rest d _ k Hd Hdigits)).
Qed.

(** ** storeData and getStoredData *)

Lemma split_comma_record (sentence : string) (occurrenceIndex : Z) :
  split_comma (sentence +:+ "," +:+ pretty occurrenceIndex)
  = split_comma sentence ++ [pretty occurrenceIndex].
Proof.
  rewrite split_comma_app.
  rewrite (split_comma_commaFree (pretty occurrenceIndex))
    by apply parseInt10_pretty.
  reflexivity.
Qed.



(** X16: a sentence with a comma does not survive the round trip:
    [getStoredData] returns the part of the sentence before its first comma,
    and takes the occurrence index from what follows that comma, not from
    the index stored. *)
Theorem getStoredData_cuts_the_sentence_at_a_comma (key before after : string)
    (occurrenceIndex : Z) (storage : gmap string string) :
  commaFree before = true ->
  getStoredData key
    (storeData key (before +:+ "," +:+ after) occurrenceIndex storage)
  = Some (before, parseInt10 (default "" (split_comma after !! 0%nat))).
Proof.
  intros Hfree. unfold getStoredData, storeData.
  rewrite lookup_insert_eq, append_comma_not_empty. cbn [negb].
  rewrite split_comma_record, split_comma_app, (split_comma_commaFree before Hfree).
  destruct (split_comma_nonempty after) as (piece & more & ->). reflexivity.
Qed.

Lemma getStoredData_cuts_the_sentence_at_a_comma_witness :
  getStoredData "neko" (storeData "neko" "neko,2 hiki" 0 ∅) = Some ("neko", Some 2).
Proof.
  apply (getStoredData_cuts_the_sentence_at_a_comma "neko" "neko" "2 hiki" 0 ∅).
  reflexivity.
Defined.

(** ** toggleStarState *)

Lemma isString_JStr (a b : string) : isString a (JStr b) = String.eqb a b.
Proof. reflexivity. Qed.

(** [toggleStarState] when the word is not blacklisted and an example with a
    string for a sentence is shown. *)
Lemma toggleStarState_run (s : State) (currentExampleIndex : Z) (sentence : string)
    (storage : gmap string string) :
  currentSentence s currentExampleIndex sentence ->
  isBlacklistedExactly (storage !! vocab s) = false ->
  toggleStarState s currentExampleIndex storage =
  match storage !! vocab s with
  | Some (String c rest as storedValue) =>
      if String.eqb (default "" (split_comma storedValue !! 0%nat)) sentence
      then inr (delete (vocab s) storage, Some "‚òÜ")
      else inr (storeData (vocab s) sentence 0 storage, Some "‚òÖ")
  | _ => inr (storeData (vocab s) sentence 0 storage, Some "‚òÖ")
  end.
Proof.
  intros (example & Hindex & Hsentence & Hnonempty) Hlisted.
  unfold toggleStarState. rewrite Hlisted, Hindex, Hsentence.
  assert (Hexample : truthy example = true).
  { destruct example; try discriminate Hsentence. reflexivity. }
  assert (Htruthy : truthy (JStr sentence) = true).
  { destruct sentence; [contradiction | reflexivity]. }
  rewrite Hexample, Htruthy. cbn [negb orb String_of].
  destruct (storage !! vocab s) as [[|c rest]|]; reflexivity.
Qed.

Lemma eqb_append_comma (a b : string) : String.eqb a (a +:+ "," +:+ b) = false.
Proof.
  induction a as [|c rest IH]; [reflexivity|].
  rewrite append_cons. cbn [String.eqb]. rewrite Ascii.eqb_refl. exact IH.
Qed.

Lemma isBlacklistedExactly_starred (sentence : string) :
  commaFree sentence = true ->
  isBlacklistedExactly (Some (sentence +:+ "," +:+ pretty 0)) = false.
Proof.
  intros Hfree. unfold isBlacklistedExactly.
  rewrite split_comma_record, (split_comma_commaFree sentence Hfree).
  rewrite append_comma_not_empty. reflexivity.
Qed.

(** X17: starring and unstarring. When the word is not blacklisted, its
    record (if any) is for another sentence, and the example shown has a
    non-empty sentence without a comma, [toggleStarState] stores the record
    "sentence,0" and fills the star; called again, it removes the record and
    empties the star, so that the word is left without a record. *)
Theorem star_then_unstar (s : State) (currentExampleIndex : Z) (sentence : string)
    (storage : gmap string string) :
  currentSentence s currentExampleIndex sentence ->
  commaFree sentence = true ->
  isBlacklistedExactly (storage !! vocab s) = false ->
  (forall record, storage !! vocab s = Some record ->
     default "" (split_comma record !! 0%nat) <> sentence) ->
  let starred := storeData (vocab s) sentence 0 storage in
  toggleStarState s currentExampleIndex storage = inr (starred, Some "‚òÖ")
  /\ starred !! vocab s = Some (sentence +:+ ",0")
  /\ toggleStarState s currentExampleIndex starred
     = inr (delete (vocab s) storage, Some "‚òÜ").
Proof.
  intros Hshown Hfree Hlisted Hother starred.
  split; [|split].
  - rewrite (toggleStarState_run s _ sentence storage Hshown Hlisted).
    destruct (storage !! vocab s) as [[|c rest]|] eqn:Hrecord; try reflexivity.
    destruct (String.eqb_spec (default "" (split_comma (String c rest) !! 0%nat))
                sentence) as [Heq|_]; [|reflexivity].
    destruct (Hother _ eq_refl Heq).
  - apply lookup_insert_eq.
  - rewrite (toggleStarState_run s _ sentence starred Hshown).
    + subst starred. unfold storeData. rewrite lookup_insert_eq.
      destruct (sentence +:+ "," +:+ pretty 0) as [|c rest] eqn:Hvalue.
      { pose proof (append_comma_not_empty sentence (pretty 0)) as H.
        rewrite Hvalue in H. discriminate H. }
      rewrite <- Hvalue, split_comma_record, (split_comma_commaFree sentence Hfree).
      cbn [app lookup list_lookup default]. rewrite String.eqb_refl.
      rewrite delete_insert_eq. reflexivity.
    + subst starred. unfold storeData. rewrite lookup_insert_eq.
      exact (isBlacklistedExactly_starred sentence Hfree).
Qed.

(** X18: a sentence with a comma cannot be unstarred: once its record is
    stored, a further [toggleStarState] on the same example leaves
    chrome.storage exactly as it is (the record is compared by its part
    before the first comma, which is not the sentence). *)
Theorem star_with_comma_sticks (s : State) (currentExampleIndex : Z)
    (before after : string) (storage : gmap string string) :
  let sentence := before +:+ "," +:+ after in
  let starred := storeData (vocab s) sentence 0 storage in
  currentSentence s currentExampleIndex sentence ->
  commaFree before = true ->
  exists icon,
    toggleStarState s currentExampleIndex starred = inr (starred, Some icon).
Proof.
  intros sentence starred Hshown Hfree.
  destruct (isBlacklistedExactly (starred !! vocab s)) eqn:Hlisted.
  - unfold toggleStarState. rewrite Hlisted. eexists. reflexivity.
  - rewrite (toggleStarState_run s _ sentence starred Hshown Hlisted).
    subst starred. unfold storeData at 1. rewrite lookup_insert_eq.
    destruct (sentence +:+ "," +:+ pretty 0) as [|c rest] eqn:Hvalue.
    { pose proof (append_comma_not_empty sentence (pretty 0)) as H.
      rewrite Hvalue in H. discriminate H. }
    rewrite <- Hvalue. subst sentence.
    rewrite split_comma_record, split_comma_app, (split_comma_commaFree before Hfree).
    cbn [app lookup list_lookup default]. rewrite eqb_append_comma.
    eexists. unfold storeData. rewrite insert_insert_eq. reflexivity.
Qed.

Lemma star_then_unstar_witness :
  toggleStarState state_shown 0 ∅
  = inr ({["neko" := "neko ga iru,0"]}, Some "‚òÖ")
  /\ toggleStarState state_shown 0 {["neko" := "neko ga iru,0"]}
     = inr (∅, Some "‚òÜ").
Proof.
  destruct (star_then_unstar state_shown 0 "neko ga iru" ∅) as (Hstar & _ & Hunstar).
  - eexists. split; [reflexivity|]. split; [reflexivity | discriminate].
  - reflexivity.
  - reflexivity.
  - intros record H. rewrite lookup_empty in H. discriminate H.
  - split; [exact Hstar|]. rewrite delete_empty in Hunstar. exact Hunstar.
Defined.

Lemma star_with_comma_sticks_witness :
  exists icon,
    toggleStarState state_shown 1 {["neko" := "neko,2 hiki,0"]}
    = inr ({["neko" := "neko,2 hiki,0"]}, Some icon).
Proof.
  apply (star_with_comma_sticks state_shown 1 "neko" "2 hiki" ∅).
  - eexists. split; [reflexivity|]. split; [reflexivity | discriminate].
  - reflexivity.
Defined.

(** X19: starring a sentence without a comma never blacklists the word: the
    record written reads as not blacklisted by the test of the lookup and by
    the test of [toggleStarState]. *)
Theorem starring_without_comma_never_blacklists (key sentence : string)
    (storage : gmap string string) :
  commaFree sentence = true ->
  isBlacklisted (storeData key sentence 0 storage !! key) = false
  /\ isBlacklistedExactly (storeData key sentence 0 storage !! key) = false.
Proof.
  intros Hfree. unfold storeData. rewrite lookup_insert_eq.
  split; [|exact (isBlacklistedExactly_starred sentence Hfree)].
  unfold isBlacklisted.
  rewrite split_comma_record, (split_comma_commaFree sentence Hfree).
  rewrite append_comma_not_empty. cbn [app lookup list_lookup negb andb length].
  rewrite bool_decide_eq_true_2 by lia.
  rewrite bool_decide_eq_false_2; [reflexivity|]. vm_compute. discriminate.
Qed.

Lemma starring_without_comma_never_blacklists_witness :
  isBlacklisted (storeData "neko" "neko ga iru" 0 ∅ !! "neko") = false.
Proof.
  apply (starring_without_comma_never_blacklists "neko" "neko ga iru" ∅). reflexivity.
Defined.

(** X20: starring can blacklist the word. When the sentence of the example
    shown has a comma and its second comma-separated field reads 2, the
    record that [toggleStarState] stores for the current word is taken for a
    blacklist record by [getImmersionKitData]: the next lookup returns at
    once, without a request and without reading the store. *)
Theorem starring_can_blacklist_the_word
    (encodeURIComponent : string -> string) (remote : nat -> string -> Exchange)
    (term : string) (exactSearch : bool) (w : World) (currentExampleIndex : Z)
    (sentence flag : string) :
  currentSentence (state w) currentExampleIndex sentence ->
  prefs w !! vocab (state w) = None ->
  split_comma sentence !! 1%nat = Some flag ->
  parseInt10 flag = Some 2 ->
  let starred := storeData (vocab (state w)) sentence 0 (prefs w) in
  let run := getImmersionKitData encodeURIComponent remote term exactSearch
               (withPrefs starred w) in
  toggleStarState (state w) currentExampleIndex (prefs w) = inr (starred, Some "‚òÖ")
  /\ fst run = Returned tt
  /\ requests (snd run) = requests w
  /\ trace (snd run) = trace w ++ [EvPrefsGet (vocab (state w))].
Proof.
  intros Hshown Habsent Hflag Hparse starred run.
  split.
  - rewrite (toggleStarState_run _ _ sentence _ Hshown) by (rewrite Habsent; reflexivity).
    rewrite Habsent. reflexivity.
  - subst run. rewrite getImmersionKitData_run. cbn [withPrefs state prefs].
    subst starred. unfold storeData. rewrite lookup_insert_eq.
    rewrite (isBlacklisted_flag (sentence +:+ "," +:+ pretty 0) flag).
    + repeat split.
    + rewrite split_comma_record. apply lookup_app_l_Some. exact Hflag.
    + exact Hparse.
Qed.

Lemma starring_can_blacklist_the_word_witness :
  toggleStarState state_shown 1 ∅ = inr ({["neko" := "neko,2 hiki,0"]}, Some "‚òÖ")
  /\ fst (getImmersionKitData encode_plain remote_hit "neko" false
            (withPrefs {["neko" := "neko,2 hiki,0"]} world_shown)) = Returned tt
  /\ requests (snd (getImmersionKitData encode_plain remote_hit "neko" false
                      (withPrefs {["neko" := "neko,2 hiki,0"]} world_shown)))
     = 0%nat.
Proof.
  destruct (starring_can_blacklist_the_word encode_plain remote_hit "neko" false
              world_shown 1 "neko,2 hiki" "2 hiki")
    as (Hstar & Hrun & Hrequests & _).
  - eexists. split; [reflexivity|]. split; [reflexivity | discriminate].
  - reflexivity.
  - reflexivity.
  - reflexivity.
  - repeat split; assumption.
Defined.

(** * Expired rows *)

Section Refresh.

Variable encodeURIComponent : string -> string.
Variable remote : nat -> string -> Exchange.

(** A run that finds an expired or invalid row and then receives a payload
    that the validator accepts: the row is deleted before the request. *)
Lemma fetchData_stale_accepted (searchVocab url : string)
    (maxRetries fuel attempt : nat) (w : World) (row : Row)
    (status : Z) (p : JValue) :
  dataStore w !! searchVocab = Some row ->
  now w - timestamp row >= IndexedDBManager.EXPIRATION_TIME
  \/ is_Some (reasonOf (data row)) ->
  answer (remote (requests w) url) = HttpResponse status (Parsed p) ->
  ok status = true ->
  reasonOf p = None ->
  fetchData remote searchVocab url maxRetries (S fuel) attempt w =
  match IndexedDBManager.save searchVocab p
          (mkWorld (mkState (prop "examples" (first (prop "data" p))) true
                            (vocab (state w)) false)
                   (delete searchVocab (dataStore w)) (prefs w)
                   (now w + elapsed (remote (requests w) url))
                   (S (requests w))
                   (trace w ++ [EvDbOpen; EvDbGet searchVocab;
                                EvDbDelete searchVocab; EvFetch url]))
  with
  | (Returned _, w') => (Returned tt, w')
  | (Threw e, w') =>
      (Threw (Error ("Fetch error: " +:+ message_of e)),
       mkWorld (set_error true (state w')) (dataStore w') (prefs w') (now w')
               (requests w') (trace w' ++ [EvEmbed]))
  | (OutOfFuel, w') => (OutOfFuel, w')
  end.
Proof.
  intros Hrow Hstale Hanswer Hok Hvalid.
  assert (Hstale' :
            bool_decide (now w - timestamp row >= IndexedDBManager.EXPIRATION_TIME)
            || bool_decide (is_Some (reasonOf (data row))) = true).
  { destruct Hstale as [H|H]; rewrite (bool_decide_eq_true_2 _ H);
      [reflexivity | apply orb_true_r]. }
  cbn [fetchData].
  unfold bind at 1. unfold try_catch at 1. unfold bind at 1.
  unfold IndexedDBManager.open, emit at 1. cbv beta iota.
  unfold bind at 1. rewrite get_run. cbn [dataStore state prefs now requests trace].
  rewrite Hrow, Hstale'. cbv beta iota.
  cbn [cacheHit truthy andb].
  unfold try_catch at 1. unfold bind at 1.
  rewrite fetch_run. cbn [dataStore state prefs now requests trace].
  rewrite Hanswer. cbv beta iota zeta. cbn [fst snd]. rewrite Hok. cbn [negb].
  unfold bind at 1. unfold json, ret at 1. cbv beta iota.
  unfold bind at 1. rewrite validate_run, Hvalid. cbv beta iota.
  cbn [dataStore state prefs now requests trace].
  unfold bind at 1. unfold modify_state at 1. cbv beta iota.
  unfold bind at 1. unfold modify_state at 1. cbv beta iota.
  cbn [dataStore state prefs now requests trace set_examples set_apiDataFetched
       set_error examples apiDataFetched vocab error].
  rewrite <- !app_assoc. cbn [app].
  unfold bind at 1.
  destruct (IndexedDBManager.save searchVocab p _) as [[[]|e|] w'].
  - reflexivity.
  - unfold throw, bind, modify_state, embedImageAndPlayAudio, emit. cbn.
    reflexivity.
  - reflexivity.
Qed.

(** X21: a cached row that is expired, or whose payload no longer passes the
    validator, counts as a miss: the lookup deletes it, makes a request, and
    when the payload received passes the validator and is shaped, stores it
    under the search key with the time of the write and takes
    [state.examples] from it. *)
Theorem stale_row_is_refreshed (term : string) (exactSearch : bool)
    (w : World) (row : Row) (status : Z) (p : JValue) :
  let key := searchVocabOf term exactSearch in
  let url := urlOf encodeURIComponent key in
  let run := getImmersionKitData encodeURIComponent remote term exactSearch w in
  isBlacklisted (prefs w !! vocab (state w)) = false ->
  dataStore w !! key = Some row ->
  now w - timestamp row >= IndexedDBManager.EXPIRATION_TIME
  \/ is_Some (reasonOf (data row)) ->
  answer (remote (requests w) url) = HttpResponse status (Parsed p) ->
  ok status = true ->
  reasonOf p = None ->
  shaped p = true ->
  fst run = Returned tt
  /\ requests (snd run) = S (requests w)
  /\ take 5 (drop (length (trace w)) (trace (snd run)))
     = [EvPrefsGet (vocab (state w)); EvDbOpen; EvDbGet key; EvDbDelete key;
        EvFetch url]
  /\ examples (state (snd run)) = prop "examples" (first (prop "data" p))
  /\ exists slim,
       IndexedDBManager.slimResults (prop "data" p) = inr slim
       /\ dataStore (snd run) !! key
          = Some (mkRow key (JObj [("data", slim)])
                        (now w + elapsed (remote (requests w) url))).
Proof.
  intros key url run Hlisted Hrow Hstale Hanswer Hok Hvalid Hshape. subst run.
  rewrite getImmersionKitData_run, Hlisted. cbv zeta. fold key. fold url.
  rewrite (fetchData_stale_accepted key url 5 4 0 _ row status p) by assumption.
  destruct (slimResults_shaped p Hshape) as [slim Hslim].
  rewrite (save_valid_run key p (JArr slim) _ Hvalid Hslim).
  cbn [fst snd trace requests state dataStore now examples].
  split; [reflexivity|]. split; [reflexivity|]. split; [|split; [reflexivity|]].
  - rewrite <- !app_assoc. rewrite drop_app_length. reflexivity.
  - exists (JArr slim). split; [assumption | apply lookup_insert_eq].
Qed.

End Refresh.

Lemma stale_row_is_refreshed_witness :
  fst (getImmersionKitData encode_plain remote_hit "neko" false world_expired)
  = Returned tt
  /\ requests (snd (getImmersionKitData encode_plain remote_hit "neko" false
                      world_expired)) = 1%nat.
Proof.
  destruct (stale_row_is_refreshed encode_plain remote_hit "neko" false
              world_expired row_neko 200 payload_hit)
    as (Hrun & Hrequests & _).
  - reflexivity.
  - reflexivity.
  - left. vm_compute. discriminate.
  - reflexivity.
  - reflexivity.
  - reflexivity.
  - reflexivity.
  - split; assumption.
Defined.

(** * replaceSpecialCharacters *)

Lemma occurs_append (c : ascii) (a b : string) :
  occurs c (a +:+ b) = occurs c a || occurs c b.
Proof.
  induction a as [|c' rest IH]; [reflexivity|].
  rewrite append_cons. cbn [occurs]. rewrite IH, orb_assoc. reflexivity.
Qed.

(** Replacing every occurrence of a one-character pattern by a text without
    that character leaves none. *)
Lemma replace_char_occurs (c : ascii) (replacement s : string) :
  occurs c replacement = false ->
  occurs c (replaceAll (String c "") replacement s) = false.
Proof.
  intros Hreplacement. unfold replaceAll.
  induction s as [|c' rest IH]; [reflexivity|].
  cbn [replace_from String.prefix String.length Nat.sub].
  destruct (ascii_dec c c') as [<-|Hne].
  - assert (Hprefix : String.prefix "" rest = true) by (destruct rest; reflexivity).
    rewrite Hprefix, occurs_append, Hreplacement, IH. reflexivity.
  - cbn [occurs]. rewrite IH.
    destruct (Ascii.eqb_spec c c') as [Heq|_]; [contradiction | reflexivity].
Qed.

(** A text without the first character of the pattern is left as it is. *)
Lemma replace_from_absent (c : ascii) (pattern replacement s : string) :
  occurs c s = false ->
  replace_from (String c pattern) replacement 0 s = s.
Proof.
  induction s as [|c' rest IH]; [reflexivity|].
  cbn [occurs]. intros [Hc Hrest]%orb_false_iff.
  cbn [replace_from String.prefix].
  destruct (ascii_dec c c') as [<-|Hne].
  - rewrite Ascii.eqb_refl in Hc. discriminate Hc.
  - cbv iota. rewrite (IH Hrest). reflexivity.
Qed.

(** X22: the text that [replaceSpecialCharacters] returns never holds a line
    feed. *)
Theorem replaceSpecialCharacters_leaves_no_line_feed (text : string) :
  occurs LF (replaceSpecialCharacters text) = false.
Proof. unfold replaceSpecialCharacters. apply replace_char_occurs. reflexivity. Qed.

(** X23: a text without a line feed, a less-than sign and an ampersand is
    returned as it is. *)
Theorem replaceSpecialCharacters_keeps_plain_text (text : string) :
  occurs LF text = false ->
  occurs "<"%char text = false ->
  occurs "&"%char text = false ->
  replaceSpecialCharacters text = text.
Proof.
  intros Hlf Hlt Hamp. unfold replaceSpecialCharacters, replaceAll.
  rewrite (replace_from_absent "<"%char "br>" _ text Hlt).
  rewrite (replace_from_absent "&"%char "quot;" _ text Hamp).
  exact (replace_from_absent LF "" _ text Hlf).
Qed.

Lemma replaceSpecialCharacters_keeps_plain_text_witness :
  replaceSpecialCharacters "There is a cat." = "There is a cat.".
Proof.
  apply replaceSpecialCharacters_keeps_plain_text; reflexivity.
Defined.

(** * What passes the validator *)

(** X24: a payload that passes the validator is an object whose [data] is a
    non-empty array or an object, whose first result is an object with truthy
    examples, and whose category counts hold at least one value that is not
    the number 0; no primitive value, no array and no payload with a string
    for [data] passes. *)
Theorem valid_payload_structure (p : JValue) :
  reasonOf p = None ->
  (exists fields, p = JObj fields)
  /\ ((exists item rest, prop "data" p = JArr (item :: rest))
      \/ (exists fields, prop "data" p = JObj fields))
  /\ (exists fields, first (prop "data" p) = JObj fields)
  /\ exists count,
       count ∈ Object_values (prop "category_count" (first (prop "data" p)))
       /\ is_zero count = false.
Proof.
  intros Hvalid.
  destruct (reasonOf_None p Hvalid) as (_ & Hdata & _ & Hexamples & _ & Hzero).
  assert (Hobject : forall key v, truthy (prop key v) = true -> exists fields, v = JObj fields).
  { intros key v H. destruct v; try discriminate H. eexists. reflexivity. }
  destruct (Hobject _ _ Hexamples) as [item Hitem].
  split; [exact (Hobject _ _ Hdata)|]. split; [|split; [eexists; exact Hitem|]].
  - destruct (prop "data" p) as [| | | |s|items|fields]; try discriminate Hitem.
    + destruct s; discriminate Hitem.
    + destruct items as [|x rest]; [discriminate Hitem|]. left. eexists _, _. reflexivity.
    + right. eexists. reflexivity.
  - clear -Hzero.
    induction (Object_values _) as [|count rest IH]; [discriminate Hzero|].
    cbn in Hzero. apply andb_false_iff in Hzero as [Hcount|Hrest].
    + exists count. split; [apply list_elem_of_here | exact Hcount].
    + destruct (IH Hrest) as (c & Hin & Hc). exists c.
      split; [apply list_elem_of_further, Hin | exact Hc].
Qed.

Lemma valid_payload_structure_witness :
  exists count,
    count ∈ Object_values (prop "category_count" (first (prop "data" payload_hit)))
    /\ is_zero count = false.
Proof.
  destruct (valid_payload_structure payload_hit) as (_ & _ & _ & H).
  - reflexivity.
  - exact H.
Defined.

(** * Eviction *)

Lemma insert_sorted_StronglySorted (x : Row) (l : list Row) :
  StronglySorted (fun a b => timestamp a <= timestamp b) l ->
  StronglySorted (fun a b => timestamp a <= timestamp b)
    (insert_sorted (fun a b => bool_decide (timestamp a <= timestamp b)) x l).
Proof.
  induction l as [|y rest IH]; cbn; intros Hsorted.
  - repeat constructor.
  - apply StronglySorted_cons in Hsorted as [Hy Hrest].
    case_bool_decide as Hxy.
    + apply StronglySorted_cons. split.
      * constructor; [exact Hxy|].
        eapply Forall_impl; [exact Hy|]. cbn. intros z Hz. lia.
      * apply StronglySorted_cons. split; assumption.
    + apply StronglySorted_cons. split; [|apply IH, Hrest].
      rewrite insert_sorted_Permutation. constructor; [lia | exact Hy].
Qed.

Lemma sort_by_timestamp_StronglySorted (l : list Row) :
  StronglySorted (fun a b => timestamp a <= timestamp b)
    (sort_by (fun a b => bool_decide (timestamp a <= timestamp b)) l).
Proof.
  induction l as [|x rest IH]; cbn; [constructor|].
  apply insert_sorted_StronglySorted, IH.
Qed.

(** X25: the rows that [save] evicts. Of the entries scanned, split into the
    evicted ones and the ones kept: when the entries are fewer than
    [MAX_ENTRIES] none is evicted, and otherwise just enough to leave
    [MAX_ENTRIES - 1] of them; no row evicted is newer than a row kept. *)
Theorem eviction_takes_the_oldest (entries : list Row) :
  exists kept,
    IndexedDBManager.entriesToDelete entries ++ kept ≡ₚ entries
    /\ Z.of_nat (length kept)
       = Z.min (Z.of_nat (length entries)) (IndexedDBManager.MAX_ENTRIES - 1)
    /\ forall old new,
         old ∈ IndexedDBManager.entriesToDelete entries -> new ∈ kept ->
         timestamp old <= timestamp new.
Proof.
  unfold IndexedDBManager.entriesToDelete.
  set (sorted := sort_by (fun a b => bool_decide (timestamp a <= timestamp b)) entries).
  assert (Hperm : sorted ≡ₚ entries) by apply sort_by_Permutation.
  assert (Hlength : length sorted = length entries) by (rewrite Hperm; reflexivity).
  case_bool_decide as Hfull.
  - set (n := Z.to_nat (Z.of_nat (length entries) - IndexedDBManager.MAX_ENTRIES + 1)).
    exists (drop n sorted). rewrite take_drop. split; [exact Hperm|]. split.
    + rewrite length_drop, Hlength. subst n.
      unfold IndexedDBManager.MAX_ENTRIES in *. lia.
    + intros old new Hold Hnew.
      pose proof (sort_by_timestamp_StronglySorted entries) as Hsorted.
      fold sorted in Hsorted. rewrite <- (take_drop n sorted) in Hsorted.
      exact (StronglySorted_app_1_elem_of _ _ _ _ _ Hsorted Hold Hnew).
  - exists entries. split; [reflexivity|]. split; [lia|].
    intros old new Hold. apply elem_of_nil in Hold. contradiction.
Qed.

Lemma eviction_takes_the_oldest_witness :
  exists kept,
    IndexedDBManager.entriesToDelete [row_neko] ++ kept ≡ₚ [row_neko]
    /\ Z.of_nat (length kept) = 1.
Proof.
  destruct (eviction_takes_the_oldest [row_neko]) as (kept & Hperm & Hlength & _).
  exists kept. split; [exact Hperm|]. rewrite Hlength. reflexivity.
Defined.
